(** * Data preparation of the saliency pipeline (data.py, main.py)

    A shallow embedding of the data-preparation code: the geometry
    functions ([_resize_image], [_pad_image], [_np_pad_image],
    [_crop_image]), the index partitioners, the consistency check, the
    batching of a decoded video and the inference loop.

    Conventions.
    - Sizes and indices are [Z].  A ratio of two sizes and the product of
      a size with a ratio are float64 values in the source; they are
      modelled by exact rationals ([Q]), and [np.round] / [tf.round] by
      rounding half to even on [Q].
    - An array or tensor of rank three is its shape together with its
      indexing function.
    - The interpolation kernels of OpenCV and TensorFlow are parameters:
      the code only chooses the kernel and the output size.  A library
      call ([cv2.resize], [np.pad], [tf.pad], ...) is modelled by what it
      returns for the arguments the code gives it; the checks a library
      makes on its arguments are not modelled.
    - What the program reads from outside (file system, video decoder,
      NumPy's generator, the imported network, [config.DIMS]) is a
      parameter of the functions that use it.
    - A function that can raise returns a [result]; an exception
      propagates through [bind] unless the code catches it. *)

From Stdlib Require Import ZArith QArith Qround Qminmax List Bool Lia.
From Stdlib Require Import Permutation.
From Stdlib Require String Ascii Sorted.
Import ListNotations.

Local Open Scope Z_scope.

(** ** Numeric helpers: float rounding on exact rationals *)

Module Num.

(** [np.round], [tf.round]: to the nearest integer, ties to the even one. *)
Definition round_half_even (q : Q) : Z :=
  let f := Qfloor q in
  match Qcompare (q - inject_Z f) (1 # 2) with
  | Lt => f
  | Gt => f + 1
  | Eq => if Z.even f then f else f + 1
  end.

(** [a / b] on two Python ints (true division). *)
Definition truediv (a b : Z) : Q := inject_Z a / inject_Z b.

(** [np.clip(v, lo, hi)], [tf.clip_by_value]. *)
Definition clip (lo hi v : Q) : Q := Qmin (Qmax v lo) hi.

End Num.

(** ** Exceptions *)

Module Exn.

Import String.

(** The exceptions the code raises or meets. *)
Inductive exn : Type :=
| AssertionError (msg : string)
| FileNotFoundError (msg : string)
| TypeError (msg : string)
| ValueError (msg : string)
| IndexError (msg : string)
| InvalidArgumentError (msg : string)
| UnknownError (msg : string)
| OutOfRangeError.

(** The outcome of a call: a value, or an exception that propagates. *)
Inductive result (A : Type) : Type :=
| Ok (a : A)
| Raise (e : exn).

Arguments Ok {A} a.
Arguments Raise {A} e.

Definition bind {A B : Type} (r : result A) (k : A -> result B) : result B :=
  match r with
  | Ok a => k a
  | Raise e => Raise e
  end.

Definition is_ok {A : Type} (r : result A) : bool :=
  match r with Ok _ => true | Raise _ => false end.

End Exn.

Notation "x <- r ;; k" := (Exn.bind r (fun x => k))
  (at level 61, r at next level, right associativity).
Notation "' p <- r ;; k" := (Exn.bind r (fun p => k))
  (at level 61, p pattern, r at next level, right associativity).

(** ** Python sequences: slices *)

Module Py.

(** A bound [i] of a slice on a sequence of length [n], as Python
    normalises it ([slice.indices], step 1): a negative bound counts from
    the end, and the result is clipped to [0, n]. *)
Definition slice_index (n i : Z) : Z :=
  if i <? 0 then Z.max 0 (i + n) else Z.min i n.

(** [a[start:stop]] on an axis of length [n]: the offset of the first
    element kept and the number of elements kept. *)
Definition slice_axis (n start stop : Z) : Z * Z :=
  let s := slice_index n start in
  let e := slice_index n stop in
  (s, Z.max 0 (e - s)).

(** [l[start:stop]] on a list; [None] is an omitted bound. *)
Definition slice {A : Type} (l : list A) (start stop : option Z) : list A :=
  let n := Z.of_nat (length l) in
  let s := match start with None => 0 | Some i => slice_index n i end in
  let e := match stop with None => n | Some i => slice_index n i end in
  firstn (Z.to_nat (e - s)) (skipn (Z.to_nat s) l).

(** An argument that is iterated: a sequence (a list, which can be
    iterated any number of times), or a one-shot iterator (what [zip]
    returns), which yields each pending item once. *)
Inductive iterable (A : Type) : Type :=
| Sequence (items : list A)
| Iterator (pending : list A).

Arguments Sequence {A} items.
Arguments Iterator {A} pending.

(** [list(it)] and [for x in it]: the items visited, and the iterable
    afterwards. *)
Definition consume {A : Type} (it : iterable A) : list A * iterable A :=
  match it with
  | Sequence items => (items, Sequence items)
  | Iterator pending => (pending, Iterator [])
  end.

(** [zip(xs, ys)] *)
Definition zip {A B : Type} (xs : list A) (ys : list B) : iterable (A * B) :=
  Iterator (combine xs ys).

End Py.

(** ** Geometry: resize, pad, crop *)

Module Geometry.

Import Num Py.

(** An image of shape [(rows, cols, chans)]; [px i j k] reads one value. *)
Record image : Type := mkImage {
  rows : Z;
  cols : Z;
  chans : Z;
  px : Z -> Z -> Z -> Q
}.

(** [lb.shape(image)[:2]] *)
Definition shape2 (im : image) : Z * Z := (rows im, cols im).

(** The interpolation flags of [cv2.resize] the code uses. *)
Inductive cv2_interpolation : Type := INTER_AREA | INTER_CUBIC.

(** The two TensorFlow resize operations the code uses. *)
Inductive tf_method : Type := resize_area | resize_bicubic.

(** [np.pad(image, [[t, b], [l, r], [0, 0]], mode='constant',
    constant_values=c)] and [tf.pad] with the same arguments. *)
Definition pad (im : image) (t b l r : Z) (c : Q) : image :=
  mkImage (t + rows im + b) (l + cols im + r) (chans im)
    (fun i j k =>
       if (t <=? i) && (i <? t + rows im) && (l <=? j) && (j <? l + cols im)
       then px im (i - t) (j - l) k
       else c).

(** [image[top:bottom, left:right, ...]] *)
Definition slice2 (im : image) (top bottom left right : Z) : image :=
  let '(r0, nr) := slice_axis (rows im) top bottom in
  let '(c0, nc) := slice_axis (cols im) left right in
  mkImage nr nc (chans im) (fun i j k => px im (r0 + i) (c0 + j) k).

(** Element-wise clipping of an image. *)
Definition clip_image (lo hi : Q) (im : image) : image :=
  mkImage (rows im) (cols im) (chans im)
    (fun i j k => clip lo hi (px im i j k)).

Section Kernels.

(** The values [cv2.resize] computes for an output of size
    [dsize = (width, height)]. *)
Variable cv2_kernel : cv2_interpolation -> image -> Z * Z -> Z -> Z -> Z -> Q.

(** The values [tf.image.resize_area] / [resize_bicubic] (with
    [align_corners=True]) compute for an output of size
    [(height, width)]. *)
Variable tf_kernel : tf_method -> image -> Z * Z -> Z -> Z -> Z -> Q.

(** [cv2.resize(image, dsize, interpolation=...)]: [dsize] is
    (width, height), the result has shape (height, width). *)
Definition cv2_resize (im : image) (dsize : Z * Z)
    (interpolation : cv2_interpolation) : image :=
  mkImage (snd dsize) (fst dsize) (chans im) (cv2_kernel interpolation im dsize).

(** [tf.image.resize_*(tf.expand_dims(image, 0), size,
    align_corners=True)[0]]: [size] is (height, width). *)
Definition tf_resize (m : tf_method) (im : image) (size : Z * Z) : image :=
  mkImage (fst size) (snd size) (chans im) (tf_kernel m im size).

(** data.py, lines 430-438: the scaling factor. *)
Definition target_ratio (current_size target_size : Z * Z) (overfull : bool) : Q :=
  let height_ratio := truediv (fst target_size) (fst current_size) in
  let width_ratio := truediv (snd target_size) (snd current_size) in
  if overfull then Qmax height_ratio width_ratio
  else Qmin height_ratio width_ratio.

(** data.py, lines 441-442 and 452-453: the new (height, width). *)
Definition scaled_size (current_size : Z * Z) (ratio : Q) : Z * Z :=
  (round_half_even (inject_Z (fst current_size) * ratio),
   round_half_even (inject_Z (snd current_size) * ratio)).

(** data.py, [_resize_image]. *)
Definition _resize_image (im : image) (target_size : Z * Z)
    (overfull is_numpy : bool) : image :=
  let current_size := shape2 im in
  let ratio := target_ratio current_size target_size overfull in
  if is_numpy then
    let target_size := scaled_size current_size ratio in
    let target_size := (snd target_size, fst target_size) in
    let interpolation :=
      if (fst current_size >? fst target_size)
         || (snd current_size >? snd target_size)
      then INTER_AREA else INTER_CUBIC in
    clip_image 0%Q 255%Q (cv2_resize im target_size interpolation)
  else
    let target_size := scaled_size current_size ratio in
    let shrinking :=
      (fst current_size >? fst target_size)
      || (snd current_size >? snd target_size) in
    clip_image 0%Q 255%Q
      (if shrinking then tf_resize resize_area im target_size
       else tf_resize resize_bicubic im target_size).

(** The padding amounts of [_pad_image] and [_np_pad_image]:
    [(pad_top, pad_bottom, pad_left, pad_right)]. *)
Definition padding (current_size target_size : Z * Z) : Z * Z * Z * Z :=
  let pad_vertical := truediv (fst target_size - fst current_size) 2 in
  let pad_horizontal := truediv (snd target_size - snd current_size) 2 in
  (Qfloor pad_vertical, Qceiling pad_vertical,
   Qfloor pad_horizontal, Qceiling pad_horizontal).

(** data.py, [_pad_image] (tensor-backed). *)
Definition _pad_image (im : image) (target_size : Z * Z) : image :=
  let pad_constant_value : Q := if chans im =? 3 then 126%Q else 0%Q in
  let '(pad_top, pad_bottom, pad_left, pad_right) :=
    padding (shape2 im) target_size in
  pad im pad_top pad_bottom pad_left pad_right pad_constant_value.

(** data.py, [_np_pad_image] (array-backed). *)
Definition _np_pad_image (im : image) (target_size : Z * Z) : image :=
  let pad_constant_value : Q := if chans im =? 3 then 126%Q else 0%Q in
  let '(pad_top, pad_bottom, pad_left, pad_right) :=
    padding (shape2 im) target_size in
  pad im pad_top pad_bottom pad_left pad_right pad_constant_value.

(** data.py, [_crop_image]; both backends compute the same window. *)
Definition _crop_image (im : image) (target_size : Z * Z)
    (is_numpy : bool) : image :=
  let current_size := shape2 im in
  let crop_vertical := truediv (fst current_size - fst target_size) 2 in
  let crop_horizontal := truediv (snd current_size - snd target_size) 2 in
  let crop_top := Qfloor crop_vertical in
  let crop_left := Qfloor crop_horizontal in
  let border_bottom := crop_top + fst target_size in
  let border_right := crop_left + snd target_size in
  slice2 im crop_top border_bottom crop_left border_right.

End Kernels.

(** The padding step that follows the resize on each backend:
    [_np_pad_image] in [_parse_video_files] (lines 347-348), [_pad_image]
    in [_parse_image_files] (lines 391-392). *)
Definition pad_step (is_numpy : bool) (im : image) (target_size : Z * Z) : image :=
  if is_numpy then _np_pad_image im target_size else _pad_image im target_size.

(** A nearest-neighbour kernel, to run the functions on examples. *)
Definition nearest (im : image) (out_rows out_cols : Z) (i j k : Z) : Q :=
  px im (i * rows im / out_rows) (j * cols im / out_cols) k.

Definition cv2_nearest (_ : cv2_interpolation) (im : image) (dsize : Z * Z) :=
  nearest im (snd dsize) (fst dsize).

Definition tf_nearest (_ : tf_method) (im : image) (size : Z * Z) :=
  nearest im (fst size) (snd size).

(** A synthetic map: the value at (i, j) is (i + j) mod 256. *)
Definition synthetic (r c ch : Z) : image :=
  mkImage r c ch (fun i j _ => inject_Z ((i + j) mod 256)).

End Geometry.

(** ** The index partitioners *)

Module Partition.

Import Py.

(** [x[i] = v] on a list. *)
Fixpoint set_item (x : list Z) (i : nat) (v : Z) : list Z :=
  match x, i with
  | [], _ => []
  | _ :: rest, O => v :: rest
  | a :: rest, S i' => a :: set_item rest i' v
  end.

(** [x[i], x[j] = x[j], x[i]] *)
Definition swap (x : list Z) (i j : nat) : list Z :=
  set_item (set_item x i (nth j x 0)) j (nth i x 0).

(** [np.arange(n)] *)
Definition arange (n : Z) : list Z := map Z.of_nat (seq 0 (Z.to_nat n)).

(** [np.tile(l, k)] on a one-dimensional array. *)
Definition tile (l : list Z) (k : nat) : list Z := concat (repeat l k).

Section Generator.

(** NumPy's legacy generator: its state, [RandomState(seed)], and the
    bounded draw [rk_interval(max, state)], which returns a value between
    0 and [max] inclusive. *)
Variable rk_state : Type.
Variable RandomState : Z -> rk_state.
Variable rk_interval : Z -> rk_state -> Z * rk_state.

(** [prng.shuffle(x)] on a one-dimensional array:
    [for i in reversed(range(1, n)): j = rk_interval(i); swap x[i], x[j]].
    The first argument counts down from [n - 1]. *)
Fixpoint shuffle_from (i : nat) (prng : rk_state) (x : list Z) : list Z :=
  match i with
  | O => x
  | S i' =>
      let '(j, prng') := rk_interval (Z.of_nat i) prng in
      shuffle_from i' prng' (swap x i (Z.to_nat j))
  end.

Definition shuffle (prng : rk_state) (x : list Z) : list Z :=
  shuffle_from (length x - 1) prng x.

(** data.py, [_get_random_indices]. *)
Definition _get_random_indices (list_length : Z) : list Z :=
  let indices := arange list_length in
  let prng := RandomState 42 in
  shuffle prng indices.

(** data.py, [MIT1003.load_data], lines 108-109 and 117: the indices of
    the training and of the validation instances, for a corpus of [n]
    files ([n] is 1003 in the source). *)
Definition random_split (n n_train : Z) : list Z * list Z :=
  let indices := _get_random_indices n in
  (slice indices None (Some n_train), slice indices (Some n_train) None).

(** data.py, lines 174-175 and 187-188:
    [for idx, _ in enumerate(excerpt):
       excerpt[idx] = excerpt[idx] + idx // ratio * 100],
    from position [idx] on. *)
Fixpoint add_category_offsets (ratio : Z) (idx : Z) (excerpt : list Z) : list Z :=
  match excerpt with
  | [] => []
  | v :: rest =>
      (v + idx / ratio * 100) :: add_category_offsets ratio (idx + 1) rest
  end.

(** data.py, [CAT2000.load_data], lines 168-175 and 184-188: the indices
    of the training and of the validation instances. *)
Definition category_split (n_train n_valid : Z) : list Z * list Z :=
  let indices := _get_random_indices 100 in
  let ratio := n_train * 100 / 2000 in
  let excerpt := tile (slice indices None (Some ratio)) 20 in
  let train := add_category_offsets ratio 0 excerpt in
  let ratio := n_valid * 100 / 2000 in
  let excerpt := tile (slice indices (Some (- ratio)) None) 20 in
  let valid := add_category_offsets ratio 0 excerpt in
  (train, valid).

End Generator.

(** The files of category [c] of CAT2000 are those at the indices
    [100 c, ..., 100 c + 99] of the sorted list. *)
Definition in_category (c : Z) (idx : Z) : bool :=
  (100 * c <=? idx) && (idx <? 100 * c + 100).

(** The offsets [l] moved into each of the [k] categories from category
    [c] on, one category after the other: what the loop of lines
    174-175 makes of [np.tile(l, k)] (lemma [add_category_offsets_tile]). *)
Fixpoint blocks (l : list Z) (c : Z) (k : nat) : list Z :=
  match k with
  | O => []
  | S k' => map (fun v => v + c * 100) l ++ blocks l (c + 1) k'
  end.

(** A small generator to run the partitioners on examples: a linear
    congruential step, reduced to the requested range. *)
Definition lcg_step (s : Z) : Z := (1103515245 * s + 12345) mod 2147483648.

Definition lcg_interval (max : Z) (s : Z) : Z * Z :=
  let s' := lcg_step s in (s' mod (max + 1), s').

End Partition.

(** ** Paths and the consistency check *)

Module Consistency.

Import String Ascii Exn Py.
Local Open Scope string_scope.

(** [s.rfind(c)]: the position of the last [c] in [s], or -1. *)
Fixpoint rfind_from (c : ascii) (s : string) (pos last : Z) : Z :=
  match s with
  | EmptyString => last
  | String a rest =>
      rfind_from c rest (pos + 1) (if Ascii.eqb a c then pos else last)
  end.

Definition rfind (c : ascii) (s : string) : Z := rfind_from c s 0 (-1).

(** [s[i:]] and [s[:i]] for [0 <= i]. *)
Definition drop (i : Z) (s : string) : string :=
  substring (Z.to_nat i) (length s - Z.to_nat i) s.

Definition take (i : Z) (s : string) : string := substring 0 (Z.to_nat i) s.

(** [os.path.basename(p)] (posixpath): [p[p.rfind('/') + 1:]]. *)
Definition basename (p : string) : string := drop (rfind "/" p + 1) p.

(** Some character of [s] is not a dot. *)
Fixpoint has_non_dot (s : string) : bool :=
  match s with
  | EmptyString => false
  | String a rest => negb (Ascii.eqb a ".") || has_non_dot rest
  end.

(** [os.path.splitext(p)[0]] (posixpath): the path up to its last dot,
    when that dot comes after the last separator and after a character
    of the file name that is not a dot; the whole path otherwise. *)
Definition splitext_root (p : string) : string :=
  let sepIndex := rfind "/" p in
  let dotIndex := rfind "." p in
  if (dotIndex >? sepIndex)
     && has_non_dot (take (dotIndex - (sepIndex + 1)) (drop (sepIndex + 1) p))
  then take dotIndex p
  else p.

(** [s.replace(old, new)] for a non-empty [old]: the occurrences of
    [old] are replaced from left to right; [skip] counts the characters
    of an occurrence still to be passed over. *)
Fixpoint replace_from (old new : string) (skip : nat) (s : string) : string :=
  match s with
  | EmptyString => EmptyString
  | String a rest =>
      match skip with
      | S k => replace_from old new k rest
      | O =>
          if prefix old s
          then new ++ replace_from old new (length old - 1) rest
          else String a (replace_from old new 0 rest)
      end
  end.

Definition replace (old new s : string) : string := replace_from old new 0 s.

(** data.py, lines 622-625, for one entry of a tuple. *)
Definition reduced_name (entry : string) : string :=
  let name := basename entry in
  let name := splitext_root name in
  let name := replace "_fixMap" "" name in
  replace "_fixPts" "" name.

(** data.py, lines 622-627: the body of the loop. *)
Definition check_names (file_tuple : string * string) : result unit :=
  let file_names := map reduced_name [fst file_tuple; snd file_tuple] in
  if Nat.eqb (List.length (nodup string_dec file_names)) 1
  then Ok tt
  else Raise (AssertionError "File name mismatch").

Fixpoint check_all_names (tuples : list (string * string)) : result unit :=
  match tuples with
  | [] => Ok tt
  | file_tuple :: rest => _ <- check_names file_tuple ;; check_all_names rest
  end.

(** data.py, [_check_consistency]: [list(zipped_file_lists)] on line 619
    and the [for] loop on line 621 both iterate the argument. *)
Definition _check_consistency (zipped_file_lists : iterable (string * string))
    (n_total_files : Z) : result unit :=
  let '(listed, zipped_file_lists) := consume zipped_file_lists in
  if negb (Z.eqb (Z.of_nat (List.length listed)) n_total_files)
  then Raise (AssertionError "Files are missing")
  else
    let '(visited, _) := consume zipped_file_lists in
    check_all_names visited.

End Consistency.

(** ** File discovery, video decoding, batching, datasets, inference *)

Module Pipeline.

Import String Ascii Exn Py Num Geometry Consistency Partition.
Local Open Scope string_scope.

(** What the program reads from outside: the file system, the video
    decoder, the resize kernels, the generator of NumPy, the imported
    network, and the sizes of [config.DIMS]. *)
Record world : Type := mkWorld {
  (** [os.path.isfile] *)
  isfile : string -> bool;
  (** [os.walk(path)]: each directory with the names of its files *)
  walk : string -> list (string * list string);
  (** the frames [cv2.VideoCapture(path)] reads before [read()] fails;
      none when the file cannot be opened *)
  capture : string -> list image;
  cv2_kernel : cv2_interpolation -> image -> Z * Z -> Z -> Z -> Z -> Q;
  tf_kernel : tf_method -> image -> Z * Z -> Z -> Z -> Z -> Q;
  rk_state : Type;
  RandomState : Z -> rk_state;
  rk_interval : Z -> rk_state -> Z * rk_state;
  (** the imported graph, from an input frame to its predicted map *)
  predict : image -> image;
  (** [config.DIMS] *)
  DIMS : string -> Z * Z
}.

(** *** data.py, [_get_file_list] *)

(** [c.lower()] on an ASCII letter. *)
Definition lower_ascii (c : ascii) : ascii :=
  let n := nat_of_ascii c in
  if (65 <=? n)%nat && (n <=? 90)%nat then ascii_of_nat (n + 32) else c.

Fixpoint lower (s : string) : string :=
  match s with
  | EmptyString => EmptyString
  | String c rest => String (lower_ascii c) (lower rest)
  end.

(** [s.endswith(suffix)] *)
Definition endswith (s suffix : string) : bool :=
  (length suffix <=? length s)%nat
  && String.eqb (substring (length s - length suffix) (length suffix) s) suffix.

(** [file.lower().endswith((".png", ".jpg", ".jpeg", ".avi"))] *)
Definition accepted (file : string) : bool :=
  existsb (endswith (lower file)) [".png"; ".jpg"; ".jpeg"; ".avi"].

(** [os.path.join(a, b)] (posixpath). *)
Definition join (a b : string) : string :=
  if prefix "/" b then b
  else if String.eqb a "" || endswith a "/" then a ++ b
  else a ++ "/" ++ b.

(** [data_list.sort()] *)
Fixpoint insert_sorted (x : string) (l : list string) : list string :=
  match l with
  | [] => [x]
  | y :: rest => if String.leb x y then x :: l else y :: insert_sorted x rest
  end.

Definition sort (l : list string) : list string := fold_right insert_sorted [] l.

(** The order of the sorted list. *)
Definition string_le (a b : string) : Prop := String.leb a b = true.

Definition _get_file_list (w : world) (data_path : string) : result (list string) :=
  let data_list :=
    if isfile w data_path then [data_path]
    else flat_map (fun '(subdir, files) =>
                     map (join subdir) (filter accepted files))
           (walk w data_path) in
  let data_list := sort data_list in
  match data_list with
  | [] => Raise (FileNotFoundError "No data was found")
  | _ => Ok data_list
  end.

(** *** data.py, [_parse_video_files] and [_fetch_dataset] *)

(** [cv2.cvtColor(frame, cv2.COLOR_BGR2RGB)] *)
Definition cvtColor_BGR2RGB (frame : image) : image :=
  mkImage (rows frame) (cols frame) (chans frame)
    (fun i j k => px frame i j (2 - k)).

(** data.py, lines 346-349: what is done to one frame that was read
    ([astype(np.float32)] changes no value of the model). *)
Definition prepared_frame (w : world) (target_size : Z * Z) (frame : image) : image :=
  let image := cvtColor_BGR2RGB frame in
  let image :=
    _resize_image (cv2_kernel w) (tf_kernel w) image target_size false true in
  _np_pad_image image target_size.

(** data.py, [_parse_video_files]: [np.stack] of no frame raises
    [ValueError]; [original_size] is the size of the last frame read. *)
Definition _parse_video_files (w : world) (files : list string)
    (target_size : Z * Z) : result (list image * (Z * Z) * list string) :=
  match files with
  | [path] =>
      let frames := capture w path in
      let frames_list := map (prepared_frame w target_size) frames in
      match rev frames with
      | [] => Raise (ValueError "need at least one array to stack")
      | last_frame :: _ => Ok (frames_list, shape2 last_frame, files)
      end
  | _ => Raise (AssertionError "")
  end.

(** [tf.py_func]: an exception of the Python function surfaces as an
    error of the session. *)
Definition py_func_error (e : exn) : exn :=
  match e with
  | ValueError msg => InvalidArgumentError msg
  | TypeError msg => InvalidArgumentError msg
  | AssertionError msg => UnknownError msg
  | other => other
  end.

(** data.py, [_tf_parse_video_files]. *)
Definition _tf_parse_video_files (w : world) (files : list string)
    (target_size : Z * Z) : result (list image * (Z * Z) * list string) :=
  match _parse_video_files w files target_size with
  | Ok parsed => Ok parsed
  | Raise e => Raise (py_func_error e)
  end.

(** [dataset.batch(size)]: groups of [size] consecutive elements, the
    last one possibly shorter. *)
Fixpoint batch_from {A : Type} (fuel size : nat) (l : list A) : list (list A) :=
  match fuel, l with
  | _, [] => []
  | O, _ :: _ => []
  | S fuel', _ :: _ => firstn size l :: batch_from fuel' size (skipn size l)
  end.

Definition batch {A : Type} (size : nat) (l : list A) : list (list A) :=
  batch_from (List.length l) size l.

(** The [files] argument of [_fetch_dataset]: the two lists of a
    training set, or the list of a test set. *)
Inductive files_arg : Type :=
| FilePair (list_x list_y : list string)
| FileList (list_x : list string).

(** An element of the dataset: a frame, the original size, the path. *)
Definition element : Type := image * (Z * Z) * list string.

(** The batches of a dataset, in the order the iterator returns them. *)
Definition Dataset : Type := list (list element).

(** data.py, [_fetch_dataset]; [prefetch] changes no element. *)
Definition _fetch_dataset (w : world) (files : files_arg) (target_size : Z * Z)
    (shuffle : bool) (video_file : string) (online : bool) : result Dataset :=
  '(video, original_size, files) <-
    _tf_parse_video_files w [video_file] target_size ;;
  let dataset := video in
  let dataset := map (fun frame => (frame, original_size, files)) dataset in
  let dataset := batch 100 dataset in
  Ok dataset.

(** The [TypeError] of a call of [_fetch_dataset] that gives no
    [video_file]. *)
Definition missing_video_file : exn :=
  TypeError
    "_fetch_dataset() missing 1 required positional argument: 'video_file'".

(** A call of [_fetch_dataset(files, target_size, shuffle, video_file,
    online=False)]: an argument that the call does not give is [None];
    the first four have no default. *)
Definition call__fetch_dataset (w : world) (files : option files_arg)
    (target_size : option (Z * Z)) (shuffle : option bool)
    (video_file : option string) (online : option bool) : result Dataset :=
  match files, target_size, shuffle, video_file with
  | Some files, Some target_size, Some shuffle, Some video_file =>
      _fetch_dataset w files target_size shuffle video_file
        (match online with Some b => b | None => false end)
  | Some _, Some _, Some _, None => Raise missing_video_file
  | _, _, _, _ =>
      Raise (TypeError "_fetch_dataset() missing required positional arguments")
  end.

(** *** data.py, the dataset classes *)

(** [[l[idx] for idx in excerpt]] *)
Fixpoint select (l : list string) (excerpt : list Z) : result (list string) :=
  match excerpt with
  | [] => Ok []
  | idx :: rest =>
      let n := Z.of_nat (List.length l) in
      if ((idx <? - n) || (n <=? idx))%Z
      then Raise (IndexError "list index out of range")
      else
        let pos := (if idx <? 0 then idx + n else idx)%Z in
        picked <- select l rest ;;
        Ok (nth (Z.to_nat pos) l "" :: picked)
  end.

(** data.py, [SALICON.load_data]; [self] is the data path. *)
Definition SALICON_load_data (w : world) (data_path : string)
  : result (Dataset * Dataset) :=
  let target_size := DIMS w "image_size_salicon" in
  train_list_x <- _get_file_list w (data_path ++ "stimuli/train") ;;
  train_list_y <- _get_file_list w (data_path ++ "saliency/train") ;;
  _ <- _check_consistency (zip train_list_x train_list_y) 10000 ;;
  train_set <- call__fetch_dataset w (Some (FilePair train_list_x train_list_y))
                 (Some target_size) (Some true) None None ;;
  valid_list_x <- _get_file_list w (data_path ++ "stimuli/val") ;;
  valid_list_y <- _get_file_list w (data_path ++ "saliency/val") ;;
  _ <- _check_consistency (zip valid_list_x valid_list_y) 5000 ;;
  valid_set <- call__fetch_dataset w (Some (FilePair valid_list_x valid_list_y))
                 (Some target_size) (Some false) None None ;;
  Ok (train_set, valid_set).

(** data.py, [MIT1003.load_data], with [n_train = 803]. *)
Definition MIT1003_load_data (w : world) (data_path : string)
  : result (Dataset * Dataset) :=
  let target_size := DIMS w "image_size_mit1003" in
  let n_train := 803 in
  list_x <- _get_file_list w (data_path ++ "stimuli") ;;
  list_y <- _get_file_list w (data_path ++ "saliency") ;;
  _ <- _check_consistency (zip list_x list_y) 1003 ;;
  let indices :=
    _get_random_indices (rk_state w) (RandomState w) (rk_interval w) 1003 in
  let excerpt := slice indices None (Some n_train) in
  train_list_x <- select list_x excerpt ;;
  train_list_y <- select list_y excerpt ;;
  train_set <- call__fetch_dataset w (Some (FilePair train_list_x train_list_y))
                 (Some target_size) (Some true) None None ;;
  let excerpt := slice indices (Some n_train) None in
  valid_list_x <- select list_x excerpt ;;
  valid_list_y <- select list_y excerpt ;;
  valid_set <- call__fetch_dataset w (Some (FilePair valid_list_x valid_list_y))
                 (Some target_size) (Some false) None None ;;
  Ok (train_set, valid_set).

(** data.py, [CAT2000.load_data], with [n_train = 1600], [n_valid = 400]. *)
Definition CAT2000_load_data (w : world) (data_path : string)
  : result (Dataset * Dataset) :=
  let target_size := DIMS w "image_size_cat2000" in
  list_x <- _get_file_list w (data_path ++ "stimuli") ;;
  list_y <- _get_file_list w (data_path ++ "saliency") ;;
  _ <- _check_consistency (zip list_x list_y) 2000 ;;
  let '(train_excerpt, valid_excerpt) :=
    category_split (rk_state w) (RandomState w) (rk_interval w) 1600 400 in
  train_list_x <- select list_x train_excerpt ;;
  train_list_y <- select list_y train_excerpt ;;
  train_set <- call__fetch_dataset w (Some (FilePair train_list_x train_list_y))
                 (Some target_size) (Some true) None None ;;
  valid_list_x <- select list_x valid_excerpt ;;
  valid_list_y <- select list_y valid_excerpt ;;
  valid_set <- call__fetch_dataset w (Some (FilePair valid_list_x valid_list_y))
                 (Some target_size) (Some false) None None ;;
  Ok (train_set, valid_set).

(** The training dataset classes. *)
Inductive training_class : Type := SALICON | MIT1003 | CAT2000.

Definition load_data (w : world) (c : training_class) (data_path : string)
  : result (Dataset * Dataset) :=
  match c with
  | SALICON => SALICON_load_data w data_path
  | MIT1003 => MIT1003_load_data w data_path
  | CAT2000 => CAT2000_load_data w data_path
  end.

(** data.py, lines 218-219: the dataset of [TEST.load_data], as a
    function of the value fed for the placeholder [video_file]. *)
Definition test_set_of (w : world) (test_list_x : list string)
    (target_size : Z * Z) (video_file : string) : result Dataset :=
  call__fetch_dataset w (Some (FileList test_list_x)) (Some target_size)
    (Some false) (Some video_file) (Some true).

(** data.py, [TEST.load_data]: the file list is read when the graph is
    built; the video is decoded when the graph runs with a value fed for
    the placeholder [video_file]. *)
Definition TEST_load_data (w : world) (dataset : string) (data_path : string)
  : result (string -> result Dataset) :=
  let target_size := DIMS w ("image_size_" ++ dataset) in
  test_list_x <- _get_file_list w data_path ;;
  Ok (test_set_of w test_list_x target_size).

(** *** main.py, [test_model] *)

(** A video written by [cv2.VideoWriter]: the source file it was computed
    from (the output path is derived from it, lines 209-216), the frame
    size (width, height) and the frames. *)
Record written_video : Type := mkWritten {
  source : string;
  frame_size : Z * Z;
  frames_written : list image
}.

(** [image * c], [np.round(image)], [image.astype(np.uint8)]. *)
Definition scale (c : Q) (im : image) : image :=
  mkImage (rows im) (cols im) (chans im) (fun i j k => (px im i j k * c)%Q).

Definition np_round (im : image) : image :=
  mkImage (rows im) (cols im) (chans im)
    (fun i j k => inject_Z (round_half_even (px im i j k))).

Definition astype_uint8 (im : image) : image :=
  mkImage (rows im) (cols im) (chans im)
    (fun i j k => inject_Z ((Qfloor (px im i j k) mod 256)%Z)).

(** main.py, lines 196-203: [sess.run] returns the next batch until the
    iterator is exhausted; the [OutOfRangeError] it raises then is
    caught and ends the loop.  The predictions of all batches, and the
    sizes and paths of the last batch. *)
Fixpoint run_batches (w : world) (pending : Dataset)
    (saliency_images_list : list (list image))
    (last : list (Z * Z) * list (list string))
  : list (list image) * (list (Z * Z) * list (list string)) :=
  match pending with
  | [] => (saliency_images_list, last)
  | next_batch :: rest =>
      let saliency_images := map (fun e => predict w (fst (fst e))) next_batch in
      let target_shape := map (fun e => snd (fst e)) next_batch in
      let np_file_path := map snd next_batch in
      run_batches w rest (saliency_images_list ++ [saliency_images])
        (target_shape, np_file_path)
  end.

(** main.py, lines 193-236: one iteration of the loop over the files. *)
Definition process_video (w : world) (test_set : string -> result Dataset)
    (vf : string) : result written_video :=
  (* sess.run(init_op, feed_dict={video_file: vf}) *)
  pending <- test_set vf ;;
  let '(saliency_images_list, (target_shape, np_file_path)) :=
    run_batches w pending [] ([], []) in
  match saliency_images_list, target_shape, np_file_path with
  | [], _, _ => Raise (ValueError "need at least one array to concatenate")
  | _, target_shape :: _, (file_path_str :: _) :: _ =>
      let saliency_video := List.concat saliency_images_list in
      let frame_size :=
        match saliency_video with
        | first :: _ => (cols first, rows first)
        | [] => (0, 0)%Z
        end in
      let saliency_video := map (scale 255) saliency_video in
      let frames :=
        map (fun frame =>
               let saliency_map :=
                 _resize_image (cv2_kernel w) (tf_kernel w) frame target_shape
                   true true in
               let saliency_map := _crop_image saliency_map target_shape true in
               let saliency_map := np_round frame in
               astype_uint8 saliency_map)
          saliency_video in
      Ok (mkWritten file_path_str frame_size frames)
  | _, _, _ => Raise (IndexError "index 0 is out of bounds")
  end.

(** main.py, lines 192-236: the loop over the video files; the videos
    written so far are kept when an exception leaves the loop. *)
Fixpoint run_videos (w : world) (test_set : string -> result Dataset)
    (video_files : list string) (written : list written_video)
  : list written_video * result unit :=
  match video_files with
  | [] => (written, Ok tt)
  | vf :: rest =>
      match process_video w test_set vf with
      | Raise e => (written, Raise e)
      | Ok out => run_videos w test_set rest (written ++ [out])
      end
  end.

(** main.py, [test_model]: the videos written, and how the call ends. *)
Definition test_model (w : world) (dataset : string) (data_path : string)
  : list written_video * result unit :=
  match TEST_load_data w dataset data_path with
  | Raise e => ([], Raise e)
  | Ok test_set =>
      match _get_file_list w data_path with
      | Raise e => ([], Raise e)
      | Ok video_files => run_videos w test_set video_files []
      end
  end.

(** The steps of [load_data] that come before its first call of
    [_fetch_dataset]: lines 49-52 (SALICON), 103-112 (MIT1003), 163-178
    (CAT2000). *)
Definition before_first_fetch (w : world) (c : training_class)
    (data_path : string) : result unit :=
  match c with
  | SALICON =>
      train_list_x <- _get_file_list w (data_path ++ "stimuli/train") ;;
      train_list_y <- _get_file_list w (data_path ++ "saliency/train") ;;
      _check_consistency (zip train_list_x train_list_y) 10000
  | MIT1003 =>
      list_x <- _get_file_list w (data_path ++ "stimuli") ;;
      list_y <- _get_file_list w (data_path ++ "saliency") ;;
      _ <- _check_consistency (zip list_x list_y) 1003 ;;
      let indices :=
        _get_random_indices (rk_state w) (RandomState w) (rk_interval w) 1003 in
      let excerpt := slice indices None (Some 803%Z) in
      _ <- select list_x excerpt ;;
      _ <- select list_y excerpt ;;
      Ok tt
  | CAT2000 =>
      list_x <- _get_file_list w (data_path ++ "stimuli") ;;
      list_y <- _get_file_list w (data_path ++ "saliency") ;;
      _ <- _check_consistency (zip list_x list_y) 2000 ;;
      let excerpt :=
        fst (category_split (rk_state w) (RandomState w) (rk_interval w)
               1600 400) in
      _ <- select list_x excerpt ;;
      _ <- select list_y excerpt ;;
      Ok tt
  end.

(** *** Invariants of the loop over the batches *)

(** A batch of the dataset of [vf]: not empty, every element with the
    path [vf]. *)
Definition batch_of (vf : string) (b : list element) : Prop :=
  b <> [] /\ Forall (fun e : element => snd e = [vf]) b.

(** What the loop over the batches has collected: some prediction, and
    the sizes and paths of a batch of [vf]. *)
Definition collected (vf : string)
    (r : list (list image) * (list (Z * Z) * list (list string))) : Prop :=
  fst r <> []
  /\ exists size sizes paths, snd r = (size :: sizes, [vf] :: paths).

(** *** Worlds for the examples *)

(** A world with the given file system and decoder; nearest-neighbour
    kernels, the example generator, the identity as network, and
    240 x 320 as every size of [config.DIMS]. *)
Definition example_world (walk : string -> list (string * list string))
    (capture : string -> list image) : world :=
  mkWorld (fun _ => false) walk capture cv2_nearest tf_nearest
    Z (fun seed => seed) lcg_interval (fun frame => frame)
    (fun _ => (240, 320)%Z).

(** Nothing on disk. *)
Definition empty_world : world := example_world (fun _ => []) (fun _ => []).

(** The decimal digits of [k], four of them. *)
Definition digits4 (k : nat) : string :=
  let digit d := ascii_of_nat (48 + d mod 10) in
  String (digit (k / 1000)%nat) (String (digit (k / 100)%nat)
    (String (digit (k / 10)%nat) (String (digit k) EmptyString))).

(** The 1003 stimuli "0000.jpg", ... and their maps "0000_fixMap.png",
    ... of a complete MIT1003 directory. *)
Definition mit1003_world : world :=
  example_world
    (fun path =>
       if endswith path "stimuli"
       then [(path, map (fun k => digits4 k ++ ".jpg") (seq 0 1003))]
       else [(path, map (fun k => digits4 k ++ "_fixMap.png") (seq 0 1003))])
    (fun _ => []).

(** Three videos; the second one cannot be decoded. *)
Definition three_videos_world : world :=
  example_world
    (fun path => [(path, ["a.avi"; "b.avi"; "c.avi"])])
    (fun path =>
       if String.eqb path "videos/b.avi" then [] else [synthetic 4 6 3]).

End Pipeline.

(** ** The remaining entry points of data.py and main.py *)

Module Callers.

Import String Ascii Exn Py Num Geometry Consistency Partition Pipeline.
Local Open Scope string_scope.

(** What these functions can raise besides the exceptions of [exn]. *)
Inductive raised : Type :=
| Exn (e : exn)
| AttributeError (msg : string)
| UnboundLocalError (name : string).

(** The outcome of a call of one of them. *)
Inductive outcome (A : Type) : Type :=
| Returns (a : A)
| Raises (r : raised).

Arguments Returns {A} a.
Arguments Raises {A} r.

(** *** Used to state the properties *)

(** The sizes of the batches of [n] elements: [n / size] full batches,
    and one shorter batch for the remainder. *)
Definition batch_sizes (size n : nat) : list nat :=
  (repeat size (n / size)
   ++ (if (n mod size =? 0)%nat then [] else [(n mod size)%nat]))%list.

(** The paths [_get_file_list] collects under a directory. *)
Definition collected_paths (w : world) (data_path : string) : list string :=
  flat_map (fun '(subdir, files) => map (join subdir) (filter accepted files))
    (walk w data_path).

(** The frame [test_model] writes for a decoded frame: the prediction
    for the prepared frame, times 255, rounded, as 8-bit values. *)
Definition written_frame (w : world) (target_size : Z * Z) (frame : image)
  : image :=
  astype_uint8
    (np_round (scale 255 (predict w (prepared_frame w target_size frame)))).

(** No character of [s] is [c]. *)
Fixpoint free_of (c : ascii) (s : string) : bool :=
  match s with
  | EmptyString => true
  | String a rest => negb (Ascii.eqb a c) && free_of c rest
  end.

(** *** data.py, [postprocess_saliency_map] *)

(** data.py, lines 283-289: the map that [tf.image.encode_jpeg] then
    encodes ([tf.round], [tf.cast(..., tf.uint8)] as [np_round],
    [astype_uint8]). *)
Definition postprocess_saliency_map (w : world) (saliency_map : image)
    (target_size : Z * Z) : image :=
  let saliency_map := scale 255 saliency_map in
  let saliency_map :=
    _resize_image (cv2_kernel w) (tf_kernel w) saliency_map target_size
      true false in
  let saliency_map := _crop_image saliency_map target_size false in
  let saliency_map := np_round saliency_map in
  astype_uint8 saliency_map.

(** *** data.py, [_parse_image_files] *)

Section ImageFiles.

(** The values [tf.read_file] and [tf.image.decode_jpeg] /
    [decode_png] give for a file, decoded with the given number of
    channels. *)
Variable read_image : string -> Z -> image.

(** data.py, lines 381-388: the decoded image has [channels] channels. *)
Definition decode (filename : string) (channels : Z) : image :=
  let raw := read_image filename channels in
  mkImage (rows raw) (cols raw) channels (px raw).

(** data.py, lines 380-394: the loop, from position [count] on;
    [original_size] is [None] until an image was decoded. *)
Fixpoint parse_from (w : world) (count : Z) (files : list string)
    (target_size : Z * Z) (image_list : list image)
    (original_size : option (Z * Z)) : list image * option (Z * Z) :=
  match files with
  | [] => (image_list, original_size)
  | filename :: rest =>
      let channels := (if count =? 0 then 3 else 1)%Z in
      let image := decode filename channels in
      let original_size := shape2 image in
      let image :=
        _resize_image (cv2_kernel w) (tf_kernel w) image target_size
          false false in
      let image := _pad_image image target_size in
      parse_from w (count + 1)%Z rest target_size (image_list ++ [image])
        (Some original_size)
  end.

(** data.py, [_parse_image_files]: the images, the original size and
    the paths that the returned list holds; reading [original_size]
    on line 396 fails when the loop never ran. *)
Definition _parse_image_files (w : world) (files : list string)
    (target_size : Z * Z) : outcome (list image * (Z * Z) * list string) :=
  let '(image_list, original_size) :=
    parse_from w 0%Z files target_size [] None in
  match original_size with
  | None => Raises (UnboundLocalError "original_size")
  | Some original_size => Returns (image_list, original_size, files)
  end.

End ImageFiles.

(** *** data.py, [get_dataset_iterator] *)

(** What [get_dataset_iterator] returns: the datasets behind the two
    initializers of the training iterator, or the dataset behind the
    initializer of the test iterator (a function of the value fed for
    the placeholder [video_file]); [None] when it falls off its end. *)
Inductive iterators : Type :=
| TrainIterators (train_set valid_set : Dataset)
| TestIterator (test_set : string -> result Dataset).

(** [getattr(current_module, class_name)(data_path)]: the classes of
    data.py are SALICON, MIT1003, CAT2000 and TEST; TEST takes three
    arguments; no other name without a lower-case letter is an
    attribute of the module. *)
Definition class_of (class_name : string) : outcome training_class :=
  if String.eqb class_name "SALICON" then Returns SALICON
  else if String.eqb class_name "MIT1003" then Returns MIT1003
  else if String.eqb class_name "CAT2000" then Returns CAT2000
  else if String.eqb class_name "TEST" then
    Raises (Exn (TypeError
      "__init__() missing 2 required positional arguments: 'data_path' and 'video_file'"))
  else Raises (AttributeError class_name).

Section Upper.

(** [str.upper] *)
Variable upper : string -> string.

(** data.py, [get_dataset_iterator]; the world is the file system as the
    constructor of the class leaves it. *)
Definition get_dataset_iterator (w : world) (phase dataset data_path : string)
  : outcome (option iterators) :=
  if String.eqb phase "train" then
    let class_name := upper dataset in
    match class_of class_name with
    | Raises r => Raises r
    | Returns dataset_class =>
        match load_data w dataset_class data_path with
        | Raise e => Raises (Exn e)
        | Ok (train_set, valid_set) =>
            Returns (Some (TrainIterators train_set valid_set))
        end
    end
  else if String.eqb phase "test" then
    match TEST_load_data w dataset data_path with
    | Raise e => Raises (Exn e)
    | Ok test_set => Returns (Some (TestIterator test_set))
    end
  else Returns None.

(** The [TypeError] of a call of [get_dataset_iterator] that gives no
    [video_file]. *)
Definition missing_video_file_of_iterator : exn :=
  TypeError
    "get_dataset_iterator() missing 1 required positional argument: 'video_file'".

(** A call of [get_dataset_iterator(phase, dataset, data_path,
    video_file)]: none of the four parameters has a default; [true]
    says that the call gives the argument [video_file]. *)
Definition call_get_dataset_iterator (w : world)
    (phase dataset data_path : string) (video_file : bool)
  : outcome (option iterators) :=
  if video_file then get_dataset_iterator w phase dataset data_path
  else Raises (Exn missing_video_file_of_iterator).

(** *** main.py, [train_model] *)

(** main.py, [train_model]: line 77 calls [get_dataset_iterator] with
    three arguments; [training] stands for lines 79-145. *)
Definition train_model (w : world) (training : iterators -> outcome unit)
    (dataset data_path : string) : outcome unit :=
  match call_get_dataset_iterator w "train" dataset data_path false with
  | Raises r => Raises r
  | Returns None =>
      Raises (Exn (TypeError "cannot unpack non-iterable NoneType object"))
  | Returns (Some iterator) => training iterator
  end.

End Upper.

(** *** main.py, [define_paths] *)

(** [sub in s] on strings. *)
Fixpoint contains (sub s : string) : bool :=
  prefix sub s
  || match s with
     | EmptyString => false
     | String _ rest => contains sub rest
     end.

(** The command line: [args.phase], [args.data], [args.path]. *)
Record arguments : Type := mkArguments {
  arg_phase : string;
  arg_data : string;
  arg_path : string
}.

(** The dictionary [PATHS]. *)
Record paths : Type := mkPaths {
  paths_data : string;
  paths_history : string;
  paths_images : string;
  paths_best : string;
  paths_latest : string;
  paths_weights : string
}.

(** main.py, [define_paths]. *)
Definition define_paths (w : world) (current_path : string) (args : arguments)
  : paths :=
  let data_path :=
    if isfile w (arg_path args) then arg_path args
    else join (arg_path args) "" in
  let results_path := current_path ++ "/results/" in
  let weights_path := current_path ++ "/weights/" in
  let history_path := results_path ++ "history/" in
  let images_path := results_path ++ "images/" in
  let ckpts_path := results_path ++ "ckpts/" in
  let best_path := ckpts_path ++ "best/" in
  let latest_path := ckpts_path ++ "latest/" in
  let data_path :=
    if String.eqb (arg_phase args) "train" then
      if negb (contains (arg_data args) data_path)
      then data_path ++ arg_data args ++ "/"
      else data_path
    else data_path in
  mkPaths data_path history_path images_path best_path latest_path weights_path.

End Callers.

(** * Properties *)

(** ** Rounding and halving *)

Section NumFacts.

Import Num.

Lemma round_half_even_floor_or_succ q :
  round_half_even q = Qfloor q \/ round_half_even q = Qfloor q + 1.
Proof.
  unfold round_half_even.
  destruct (Qcompare _ _); auto.
  destruct (Z.even _); auto.
Qed.

(** Rounding never passes an integer that bounds the value from above. *)
Lemma round_half_even_le_int q t :
  (q <= inject_Z t)%Q -> round_half_even q <= t.
Proof.
  intros Hq.
  pose proof (Qfloor_resp_le _ _ Hq) as Hf. rewrite Qfloor_Z in Hf.
  destruct (Z.eq_dec (Qfloor q) t) as [E | NE].
  - (* the value is the integer [t] itself: its fractional part is zero *)
    unfold round_half_even.
    assert (Hz : (q - inject_Z (Qfloor q) == 0)%Q).
    { apply Qle_antisym.
      - rewrite E. unfold Qminus. rewrite <- (Qplus_opp_r (inject_Z t)).
        apply Qplus_le_compat; [exact Hq | apply Qle_refl].
      - unfold Qminus. rewrite <- (Qplus_opp_r (inject_Z (Qfloor q))).
        apply Qplus_le_compat; [apply Qfloor_le | apply Qle_refl]. }
    assert (Hc : Qcompare (q - inject_Z (Qfloor q)) (1 # 2) = Lt).
    { rewrite Hz. reflexivity. }
    rewrite Hc. lia.
  - destruct (round_half_even_floor_or_succ q); lia.
Qed.

(** Rounding never falls below an integer that bounds the value from below. *)
Lemma round_half_even_ge_int q t :
  (inject_Z t <= q)%Q -> t <= round_half_even q.
Proof.
  intros Hq.
  pose proof (Qfloor_resp_le _ _ Hq) as Hf. rewrite Qfloor_Z in Hf.
  destruct (round_half_even_floor_or_succ q); lia.
Qed.

(** [c * (t / c)] is [t] for a positive size [c]. *)
Lemma mul_truediv c t :
  0 < c -> (inject_Z c * truediv t c == inject_Z t)%Q.
Proof.
  intros Hc. unfold truediv.
  rewrite Qmult_div_r; [reflexivity |].
  intros H. unfold Qeq in H. simpl in H. lia.
Qed.

Lemma inject_Z_pos c : 0 < c -> (0 <= inject_Z c)%Q.
Proof. intros H. unfold Qle. simpl. lia. Qed.

(** [floor(d / 2)] and [ceil(d / 2)] on the halved integer [d]. *)
Lemma floor_half d : Qfloor (truediv d 2) = d / 2.
Proof.
  unfold truediv, Qdiv, Qmult, Qinv, Qfloor. simpl.
  rewrite Z.mul_1_r. reflexivity.
Qed.

Lemma ceil_half d : Qceiling (truediv d 2) = - ((- d) / 2).
Proof.
  unfold Qceiling, truediv, Qdiv, Qmult, Qinv, Qopp, Qfloor. simpl.
  rewrite Z.mul_1_r. reflexivity.
Qed.

Lemma floor_ceil_half d :
  Qfloor (truediv d 2) + Qceiling (truediv d 2) = d.
Proof.
  rewrite floor_half, ceil_half.
  pose proof (Z.div_mod d 2). pose proof (Z.mod_pos_bound d 2).
  pose proof (Z.div_mod (- d) 2). pose proof (Z.mod_pos_bound (- d) 2).
  lia.
Qed.

Lemma floor_half_nonneg d : 0 <= d -> 0 <= Qfloor (truediv d 2) <= d.
Proof.
  intros H. rewrite floor_half.
  pose proof (Z.div_mod d 2). pose proof (Z.mod_pos_bound d 2). lia.
Qed.

Lemma ceil_half_nonneg d : 0 <= d -> 0 <= Qceiling (truediv d 2).
Proof.
  intros H. rewrite ceil_half.
  pose proof (Z.div_mod (- d) 2). pose proof (Z.mod_pos_bound (- d) 2). lia.
Qed.

End NumFacts.

(** ** Geometry *)

Section GeometryFacts.

Import Num Py Geometry.

Variable cv2_kernel : cv2_interpolation -> image -> Z * Z -> Z -> Z -> Z -> Q.
Variable tf_kernel : tf_method -> image -> Z * Z -> Z -> Z -> Z -> Q.

Abbreviation resize := (_resize_image cv2_kernel tf_kernel).

Lemma inject_Z_lt_0 c : 0 < c -> (0 < inject_Z c)%Q.
Proof. intros H. unfold Qlt. simpl. lia. Qed.

(** Scaling by the smaller ratio stays within the target. *)
Lemma scaled_size_shrink ch cw th tw :
  0 < ch -> 0 < cw ->
  let new := scaled_size (ch, cw) (target_ratio (ch, cw) (th, tw) false) in
  fst new <= th /\ snd new <= tw.
Proof.
  intros Hh Hw. unfold scaled_size, target_ratio. cbn [fst snd].
  split; apply round_half_even_le_int.
  - rewrite <- (mul_truediv ch th Hh).
    apply Qmult_le_l; [now apply inject_Z_lt_0 | apply Q.le_min_l].
  - rewrite <- (mul_truediv cw tw Hw).
    apply Qmult_le_l; [now apply inject_Z_lt_0 | apply Q.le_min_r].
Qed.

(** Scaling by the larger ratio covers the target. *)
Lemma scaled_size_grow ch cw th tw :
  0 < ch -> 0 < cw ->
  let new := scaled_size (ch, cw) (target_ratio (ch, cw) (th, tw) true) in
  th <= fst new /\ tw <= snd new.
Proof.
  intros Hh Hw. unfold scaled_size, target_ratio. cbn [fst snd].
  split; apply round_half_even_ge_int.
  - rewrite <- (mul_truediv ch th Hh).
    apply Qmult_le_l; [now apply inject_Z_lt_0 | apply Q.le_max_l].
  - rewrite <- (mul_truediv cw tw Hw).
    apply Qmult_le_l; [now apply inject_Z_lt_0 | apply Q.le_max_r].
Qed.

(** The shape [_resize_image] returns, on either backend. *)
Lemma resize_shape im target_size overfull is_numpy :
  shape2 (resize im target_size overfull is_numpy)
  = scaled_size (shape2 im) (target_ratio (shape2 im) target_size overfull).
Proof.
  unfold _resize_image.
  destruct is_numpy; cbn zeta.
  - unfold shape2, clip_image, cv2_resize. cbn [rows cols fst snd].
    now destruct (scaled_size _ _).
  - destruct (_ || _); unfold shape2, clip_image, tf_resize;
      cbn [rows cols fst snd]; now destruct (scaled_size _ _).
Qed.

Lemma resize_chans im target_size overfull is_numpy :
  chans (resize im target_size overfull is_numpy) = chans im.
Proof.
  unfold _resize_image.
  destruct is_numpy; cbn zeta; [reflexivity |].
  now destruct (_ || _).
Qed.

(** Both padding functions are the same computation. *)
Lemma np_pad_image_eq im target_size :
  _np_pad_image im target_size = _pad_image im target_size.
Proof. reflexivity. Qed.

Lemma pad_image_shape im target_size :
  shape2 (_pad_image im target_size) = target_size.
Proof.
  unfold _pad_image, padding, shape2, pad. cbn [rows cols fst snd].
  destruct target_size as [th tw]. cbn [fst snd].
  pose proof (floor_ceil_half (th - rows im)).
  pose proof (floor_ceil_half (tw - cols im)).
  f_equal; lia.
Qed.

(** The crop window of an image that covers the target has the target's
    size. *)
Lemma crop_image_shape im target_size is_numpy :
  0 <= fst target_size <= rows im ->
  0 <= snd target_size <= cols im ->
  shape2 (_crop_image im target_size is_numpy) = target_size.
Proof.
  destruct target_size as [th tw]. cbn [fst snd]. intros Hr Hc.
  unfold _crop_image, slice2, slice_axis, slice_index, shape2.
  cbn [fst snd rows cols].
  pose proof (floor_half_nonneg (rows im - th)).
  pose proof (floor_half_nonneg (cols im - tw)).
  repeat match goal with
         | |- context [?a <? ?b] => destruct (Z.ltb_spec a b)
         end; f_equal; lia.
Qed.



(** The tensor-backed path chooses the kernel from the computed size:
    area when it is smaller than the current size on some axis, bicubic
    otherwise. *)
Lemma tf_resize_choice im target_size overfull :
  let new := scaled_size (shape2 im)
               (target_ratio (shape2 im) target_size overfull) in
  resize im target_size overfull false
  = clip_image 0 255
      (tf_resize tf_kernel
         (if (fst new <? rows im) || (snd new <? cols im)
          then resize_area else resize_bicubic) im new).
Proof.
  intros new. unfold _resize_image. cbn zeta. fold new.
  unfold shape2. cbn [fst snd].
  rewrite !Z.gtb_ltb.
  now destruct (_ || _).
Qed.

(** The array-backed path compares the current (height, width) with the
    computed size after it was swapped to OpenCV's (width, height): the
    current height against the new width, the current width against the
    new height. *)
Lemma np_resize_choice im target_size overfull :
  let new := scaled_size (shape2 im)
               (target_ratio (shape2 im) target_size overfull) in
  resize im target_size overfull true
  = clip_image 0 255
      (cv2_resize cv2_kernel im (snd new, fst new)
         (if (snd new <? rows im) || (fst new <? cols im)
          then INTER_AREA else INTER_CUBIC)).
Proof.
  intros new. unfold _resize_image. cbn zeta. fold new.
  unfold shape2. cbn [fst snd].
  rewrite !Z.gtb_ltb. reflexivity.
Qed.

(** C3, at a 100 x 300 frame resized towards (240, 320): the computed
    size is (107, 320), not smaller than the frame on either axis; the
    tensor-backed path resizes with the bicubic kernel, the array-backed
    path calls [cv2.resize] with [INTER_AREA]. *)
Theorem C3_numpy_path_picks_area_when_enlarging (values : Z -> Z -> Z -> Q) :
  let im := mkImage 100 300 3 values in
  let new := scaled_size (shape2 im) (target_ratio (shape2 im) (240, 320) false) in
  new = (107, 320)
  /\ (fst new <? rows im) || (snd new <? cols im) = false
  /\ resize im (240, 320) false false
     = clip_image 0 255 (tf_resize tf_kernel resize_bicubic im (107, 320))
  /\ resize im (240, 320) false true
     = clip_image 0 255 (cv2_resize cv2_kernel im (320, 107) INTER_AREA).
Proof.
  intros im new.
  assert (Hnew : new = (107, 320)) by (vm_compute; reflexivity).
  split; [exact Hnew |].
  split; [rewrite Hnew; reflexivity |].
  split.
  - rewrite tf_resize_choice. fold im. fold new. rewrite Hnew. reflexivity.
  - rewrite np_resize_choice. fold im. fold new. rewrite Hnew. reflexivity.
Qed.

End GeometryFacts.

(** *** The examples of the round trip *)

Section GeometryExamples.

Import Num Geometry.



End GeometryExamples.

(** ** Partitioning *)

Section PartitionFacts.

Import Py Partition.

Lemma set_item_length x i v : length (set_item x i v) = length x.
Proof.
  revert i. induction x as [| a x IH]; intros [| i]; simpl; auto.
Qed.

(** Moving the element at position [j] to the front, and [a] to its place. *)
Lemma set_item_front x j a :
  (j < length x)%nat -> Permutation (nth j x 0 :: set_item x j a) (a :: x).
Proof.
  revert j. induction x as [| b x IH]; intros [| j] Hj; simpl in *; try lia.
  - apply perm_swap.
  - eapply perm_trans; [apply perm_swap |].
    eapply perm_trans; [apply perm_skip, IH; lia |].
    apply perm_swap.
Qed.

Lemma swap_permutation x i j :
  (i < length x)%nat -> (j < length x)%nat -> Permutation (swap x i j) x.
Proof.
  revert i j. induction x as [| a x IH]; intros [| i] [| j] Hi Hj;
    simpl in *; try lia.
  - reflexivity.
  - unfold swap. simpl. apply set_item_front. lia.
  - unfold swap. simpl. apply set_item_front. lia.
  - unfold swap. simpl. apply perm_skip. apply IH; lia.
Qed.

Lemma swap_length x i j : length (swap x i j) = length x.
Proof. unfold swap. now rewrite !set_item_length. Qed.

Lemma arange_length n : length (arange n) = Z.to_nat n.
Proof. unfold arange. now rewrite length_map, length_seq. Qed.

Lemma arange_In n i : In i (arange n) <-> 0 <= i < n.
Proof.
  unfold arange. rewrite in_map_iff. split.
  - intros (k & <- & Hk). apply in_seq in Hk. lia.
  - intros Hi. exists (Z.to_nat i). split; [lia |]. apply in_seq. lia.
Qed.

Lemma arange_NoDup n : NoDup (arange n).
Proof.
  unfold arange. apply NoDup_map_NoDup_ForallPairs; [| apply seq_NoDup].
  intros a b _ _ E. lia.
Qed.

(** Slices with one bound omitted, within the list. *)
Lemma slice_prefix {A} (l : list A) k :
  0 <= k <= Z.of_nat (length l) ->
  slice l None (Some k) = firstn (Z.to_nat k) l.
Proof.
  intros Hk. unfold slice, slice_index.
  destruct (Z.ltb_spec k 0); [lia |].
  rewrite Z.min_l, Z.sub_0_r by lia. reflexivity.
Qed.

Lemma slice_suffix {A} (l : list A) k :
  0 <= k <= Z.of_nat (length l) ->
  slice l (Some k) None = skipn (Z.to_nat k) l.
Proof.
  intros Hk. unfold slice, slice_index.
  destruct (Z.ltb_spec k 0); [lia |].
  rewrite Z.min_l by lia.
  apply firstn_all2. rewrite length_skipn. lia.
Qed.

(** [l[-k:]] keeps the last [k] elements. *)
Lemma slice_last {A} (l : list A) k :
  0 < k <= Z.of_nat (length l) ->
  slice l (Some (- k)) None = skipn (length l - Z.to_nat k) l.
Proof.
  intros Hk. unfold slice, slice_index.
  destruct (Z.ltb_spec (- k) 0); [| lia].
  rewrite Z.max_r by lia.
  replace (Z.to_nat (- k + Z.of_nat (length l)))
    with (length l - Z.to_nat k)%nat by lia.
  apply firstn_all2. rewrite length_skipn. lia.
Qed.

Variable rk_state : Type.
Variable RandomState : Z -> rk_state.
Variable rk_interval : Z -> rk_state -> Z * rk_state.

(** The contract of [rk_interval]: a value between 0 and [max]. *)
Hypothesis rk_interval_range :
  forall max prng, 0 <= max -> 0 <= fst (rk_interval max prng) <= max.

Lemma shuffle_from_permutation i prng x :
  (i < length x)%nat -> Permutation (shuffle_from rk_state rk_interval i prng x) x.
Proof.
  revert prng x. induction i as [| i IH]; intros prng x Hi;
    cbn [shuffle_from].
  - reflexivity.
  - pose proof (rk_interval_range (Z.of_nat (S i)) prng ltac:(lia)) as Hj.
    destruct (rk_interval (Z.of_nat (S i)) prng) as [j prng'].
    cbn [fst] in Hj.
    eapply perm_trans.
    + apply IH. rewrite swap_length. lia.
    + apply swap_permutation; lia.
Qed.

Lemma shuffle_permutation prng x :
  Permutation (shuffle rk_state rk_interval prng x) x.
Proof.
  unfold shuffle. destruct x as [| a x]; [reflexivity |].
  apply shuffle_from_permutation. simpl. lia.
Qed.

Abbreviation indices_of n :=
  (_get_random_indices rk_state RandomState rk_interval n).

(** [_get_random_indices(n)] is a rearrangement of 0, ..., n - 1. *)
Lemma get_random_indices_permutation n :
  Permutation (indices_of n) (arange n).
Proof. apply shuffle_permutation. Qed.

Lemma get_random_indices_length n : length (indices_of n) = Z.to_nat n.
Proof.
  rewrite (Permutation_length (get_random_indices_permutation n)).
  apply arange_length.
Qed.

Lemma get_random_indices_NoDup n : NoDup (indices_of n).
Proof.
  eapply Permutation_NoDup; [| apply arange_NoDup].
  symmetry. apply get_random_indices_permutation.
Qed.

Lemma get_random_indices_In n i : In i (indices_of n) <-> 0 <= i < n.
Proof.
  rewrite <- arange_In. split; apply Permutation_in;
    [| symmetry]; apply get_random_indices_permutation.
Qed.

(** A list without repetition, cut in two: no element is on both sides. *)
Lemma NoDup_cut_disjoint {A} (l : list A) k a :
  NoDup l -> In a (firstn k l) -> ~ In a (skipn k l).
Proof.
  intros Hnd Hf Hs. rewrite <- (firstn_skipn k l) in Hnd.
  revert Hnd Hf Hs. generalize (firstn k l) (skipn k l). intros f s.
  induction f as [| b f IH]; simpl; intros Hnd Hf Hs; [easy |].
  inversion Hnd as [| ? ? Hnotin Hnd']; subst.
  destruct Hf as [-> | Hf].
  - apply Hnotin, in_or_app. now right.
  - now apply IH.
Qed.

(** C4: for every corpus size n and every train count 0 <= n_train <= n,
    the seeded split (the shuffle of 0, ..., n - 1 by a generator seeded
    with 42, its first n_train entries for training, the rest for
    validation) is a function of (n, n_train) only, so two invocations
    with the same arguments give the same index lists; the two lists
    together hold no index twice, share no index, hold exactly the
    indices of [0, n), and have n_train and n - n_train entries. *)
Theorem C4_random_split_partitions (n n_train : Z) :
  0 <= n_train <= n ->
  let split := random_split rk_state RandomState rk_interval in
  let '(train, valid) := split n n_train in
  (forall n' n_train', n' = n -> n_train' = n_train ->
     split n' n_train' = (train, valid))
  /\ NoDup (train ++ valid)
  /\ (forall i, In i train -> ~ In i valid)
  /\ (forall i, 0 <= i < n <-> In i train \/ In i valid)
  /\ length train = Z.to_nat n_train
  /\ length valid = Z.to_nat (n - n_train).
Proof.
  intros Hk split. unfold split, random_split.
  pose proof (get_random_indices_length n) as Hlen.
  rewrite slice_prefix, slice_suffix by (rewrite Hlen; lia).
  split; [| split; [| split; [| split; [| split]]]].
  - intros n' k' -> ->.
    rewrite slice_prefix, slice_suffix by (rewrite Hlen; lia). reflexivity.
  - rewrite firstn_skipn. apply get_random_indices_NoDup.
  - intros i. apply NoDup_cut_disjoint, get_random_indices_NoDup.
  - intros i. rewrite <- in_app_iff, firstn_skipn.
    symmetry. apply get_random_indices_In.
  - rewrite length_firstn, Hlen. lia.
  - rewrite length_skipn, Hlen. lia.
Qed.

Lemma add_category_offsets_app ratio idx l1 l2 :
  add_category_offsets ratio idx (l1 ++ l2)
  = add_category_offsets ratio idx l1
    ++ add_category_offsets ratio (idx + Z.of_nat (length l1)) l2.
Proof.
  revert idx. induction l1 as [| a l1 IH]; intros idx; simpl.
  - now rewrite Z.add_0_r.
  - rewrite IH. do 3 f_equal. lia.
Qed.

(** Within one category the quotient [idx // ratio] is constant. *)
Lemma add_category_offsets_block ratio c p l :
  0 < ratio -> 0 <= p -> p + Z.of_nat (length l) <= ratio ->
  add_category_offsets ratio (c * ratio + p) l = map (fun v => v + c * 100) l.
Proof.
  intros Hr. revert p. induction l as [| a l IH]; intros p Hp Hl; simpl in *.
  - reflexivity.
  - f_equal.
    + replace ((c * ratio + p) / ratio) with c; [reflexivity |].
      apply Z.div_unique with (r := p); [lia | ring].
    + replace (c * ratio + p + 1) with (c * ratio + (p + 1)) by lia.
      apply IH; lia.
Qed.

Lemma add_category_offsets_tile ratio l c k :
  0 < ratio -> Z.of_nat (length l) = ratio ->
  add_category_offsets ratio (c * ratio) (tile l k) = blocks l c k.
Proof.
  intros Hr Hl. revert c. induction k as [| k IH]; intros c.
  - reflexivity.
  - unfold tile in *. cbn [repeat concat blocks].
    rewrite add_category_offsets_app. f_equal.
    + rewrite <- (Z.add_0_r (c * ratio)).
      apply add_category_offsets_block; lia.
    + rewrite Hl. replace (c * ratio + ratio) with ((c + 1) * ratio) by lia.
      apply IH.
Qed.

Lemma blocks_length l c k : length (blocks l c k) = (k * length l)%nat.
Proof.
  revert c. induction k as [| k IH]; intros c; cbn [blocks].
  - reflexivity.
  - rewrite length_app, length_map, IH. lia.
Qed.

Lemma blocks_In l c k x :
  In x (blocks l c k)
  <-> exists v d, In v l /\ c <= d < c + Z.of_nat k /\ x = v + d * 100.
Proof.
  revert c. induction k as [| k IH]; intros c; cbn [blocks].
  - split; [easy | intros (v & d & _ & Hd & _); lia].
  - rewrite in_app_iff, in_map_iff, IH. split.
    + intros [(v & <- & Hv) | (v & d & Hv & Hd & ->)].
      * exists v, c. repeat split; (assumption || lia).
      * exists v, d. repeat split; (assumption || lia).
    + intros (v & d & Hv & Hd & ->).
      destruct (Z.eq_dec d c) as [-> | Hne].
      * left. now exists v.
      * right. exists v, d. repeat split; (assumption || lia).
Qed.

(** Offsets below 100 stay in the category they are moved to. *)
Lemma filter_in_category_map l c c' :
  Forall (fun v => 0 <= v < 100) l ->
  filter (in_category c') (map (fun v => v + c * 100) l)
  = if Z.eq_dec c c' then map (fun v => v + c * 100) l else [].
Proof.
  intros Hl. induction Hl as [| v l Hv Hl IH]; simpl.
  - now destruct (Z.eq_dec c c').
  - rewrite IH. unfold in_category.
    destruct (Z.eq_dec c c') as [-> | Hne].
    + destruct (Z.leb_spec (100 * c') (v + c' * 100));
        destruct (Z.ltb_spec (v + c' * 100) (100 * c' + 100));
        simpl; try lia; reflexivity.
    + destruct (Z.leb_spec (100 * c') (v + c * 100));
        destruct (Z.ltb_spec (v + c * 100) (100 * c' + 100));
        simpl; try lia; reflexivity.
Qed.

Lemma blocks_category_count l c k c' :
  Forall (fun v => 0 <= v < 100) l ->
  length (filter (in_category c') (blocks l c k))
  = if (c <=? c') && (c' <? c + Z.of_nat k) then length l else 0%nat.
Proof.
  intros Hl. revert c. induction k as [| k IH]; intros c; cbn [blocks].
  - cbn [filter length].
    destruct (Z.leb_spec c c'); destruct (Z.ltb_spec c' (c + Z.of_nat 0));
      simpl; try lia; reflexivity.
  - rewrite filter_app, length_app, IH, filter_in_category_map by assumption.
    destruct (Z.eq_dec c c') as [-> | Hne].
    + rewrite length_map.
      destruct (Z.leb_spec (c' + 1) c'); [lia |].
      destruct (Z.leb_spec c' c'); [| lia].
      destruct (Z.ltb_spec c' (c' + Z.of_nat (S k))); [| lia].
      simpl. lia.
    + destruct (Z.leb_spec (c + 1) c');
        destruct (Z.ltb_spec c' (c + 1 + Z.of_nat k));
        destruct (Z.leb_spec c c');
        destruct (Z.ltb_spec c' (c + Z.of_nat (S k)));
        simpl; try lia; reflexivity.
Qed.

Lemma blocks_NoDup l c k :
  Forall (fun v => 0 <= v < 100) l -> NoDup l -> NoDup (blocks l c k).
Proof.
  intros Hl Hnd. rewrite Forall_forall in Hl.
  revert c. induction k as [| k IH]; intros c; cbn [blocks].
  - constructor.
  - apply NoDup_app.
    + apply NoDup_map_NoDup_ForallPairs; [| assumption].
      intros a b _ _ E. lia.
    + apply IH.
    + intros x Hin1 Hin2.
      apply in_map_iff in Hin1 as (v & <- & Hv).
      apply blocks_In in Hin2 as (v' & d & Hv' & Hd & E).
      apply Hl in Hv, Hv'. lia.
Qed.

(** C5: for the category-interleaved split of CAT2000 (2000 files in 20
    contiguous categories of 100, n_train = 1600, n_valid = 400), each
    category c of 0, ..., 19 holds exactly 80 of the training indices and
    exactly 20 of the validation indices; neither list repeats an index,
    and no index is in both. *)
Theorem C5_category_split_balanced (c : Z) :
  0 <= c < 20 ->
  let '(train, valid) :=
    category_split rk_state RandomState rk_interval 1600 400 in
  length (filter (in_category c) train) = 80%nat
  /\ length (filter (in_category c) valid) = 20%nat
  /\ length train = 1600%nat /\ length valid = 400%nat
  /\ NoDup train /\ NoDup valid
  /\ (forall i, In i train -> ~ In i valid).
Proof.
  intros Hc. unfold category_split.
  change (1600 * 100 / 2000) with 80. change (400 * 100 / 2000) with 20.
  pose proof (get_random_indices_length 100) as Hlen.
  pose proof (get_random_indices_NoDup 100) as Hnd.
  assert (Hrange : Forall (fun v => 0 <= v < 100) (indices_of 100)).
  { apply Forall_forall. intros v. apply get_random_indices_In. }
  rewrite slice_prefix by (rewrite Hlen; lia).
  rewrite (slice_last (indices_of 100) 20) by (rewrite Hlen; lia).
  rewrite Hlen. change (Z.to_nat 100 - Z.to_nat 20)%nat with 80%nat.
  change (Z.to_nat 80) with 80%nat.
  set (T := firstn 80 (indices_of 100)).
  set (V := skipn 80 (indices_of 100)).
  assert (HTlen : length T = 80%nat)
    by (unfold T; rewrite length_firstn, Hlen; reflexivity).
  assert (HVlen : length V = 20%nat)
    by (unfold V; rewrite length_skipn, Hlen; reflexivity).
  assert (HTV : T ++ V = indices_of 100) by apply firstn_skipn.
  assert (HT : Forall (fun v => 0 <= v < 100) T).
  { rewrite <- HTV in Hrange. now apply Forall_app in Hrange. }
  assert (HV : Forall (fun v => 0 <= v < 100) V).
  { rewrite <- HTV in Hrange. now apply Forall_app in Hrange. }
  assert (HTnd : NoDup T)
    by (rewrite <- HTV in Hnd; now apply NoDup_app_remove_r in Hnd).
  assert (HVnd : NoDup V)
    by (rewrite <- HTV in Hnd; now apply NoDup_app_remove_l in Hnd).
  assert (Etrain : add_category_offsets 80 0 (tile T 20) = blocks T 0 20)
    by (apply (add_category_offsets_tile 80 T 0 20); rewrite ?HTlen; lia).
  assert (Evalid : add_category_offsets 20 0 (tile V 20) = blocks V 0 20)
    by (apply (add_category_offsets_tile 20 V 0 20); rewrite ?HVlen; lia).
  rewrite Etrain, Evalid.
  assert (Hin : (0 <=? c) && (c <? 0 + Z.of_nat 20) = true).
  { destruct (Z.leb_spec 0 c); destruct (Z.ltb_spec c (0 + Z.of_nat 20));
      simpl; try lia; reflexivity. }
  repeat split.
  - rewrite blocks_category_count, Hin by assumption. exact HTlen.
  - rewrite blocks_category_count, Hin by assumption. exact HVlen.
  - rewrite blocks_length, HTlen. reflexivity.
  - rewrite blocks_length, HVlen. reflexivity.
  - now apply blocks_NoDup.
  - now apply blocks_NoDup.
  - intros i Hi1 Hi2.
    apply blocks_In in Hi1 as (v & d & Hv & Hd & E).
    apply blocks_In in Hi2 as (v' & d' & Hv' & Hd' & E').
    rewrite Forall_forall in HT, HV.
    pose proof (HT _ Hv). pose proof (HV _ Hv').
    assert (v = v') by lia. subst v'.
    now apply (NoDup_cut_disjoint (indices_of 100) 80 v Hnd).
Qed.

End PartitionFacts.

(** ** The generator used in the examples *)

Section GeneratorExamples.

Import Py Partition.

Lemma lcg_interval_range max s :
  0 <= max -> 0 <= fst (lcg_interval max s) <= max.
Proof.
  intros Hmax. unfold lcg_interval. cbn [fst].
  pose proof (Z.mod_pos_bound (lcg_step s) (max + 1)). lia.
Qed.

(** The split of MIT1003 (1003 files, 803 for training) with the example
    generator. *)
Lemma C4_random_split_mit1003 :
  let '(train, valid) := random_split Z (fun seed => seed) lcg_interval 1003 803 in
  NoDup (train ++ valid)
  /\ (forall i, 0 <= i < 1003 <-> In i train \/ In i valid)
  /\ length train = 803%nat /\ length valid = 200%nat.
Proof.
  pose proof (C4_random_split_partitions Z (fun seed => seed) lcg_interval
                lcg_interval_range 1003 803 ltac:(lia)) as H.
  cbv zeta in H.
  destruct (random_split Z (fun seed => seed) lcg_interval 1003 803)
    as [train valid].
  destruct H as (_ & Hnd & _ & Hcover & Hl1 & Hl2).
  split; [exact Hnd | split; [exact Hcover | split; [exact Hl1 | exact Hl2]]].
Defined.

(** Category 7 of CAT2000 with the example generator. *)
Lemma C5_category_split_category_7 :
  let '(train, valid) := category_split Z (fun seed => seed) lcg_interval 1600 400 in
  length (filter (in_category 7) train) = 80%nat
  /\ length (filter (in_category 7) valid) = 20%nat
  /\ (forall i, In i train -> ~ In i valid).
Proof.
  pose proof (C5_category_split_balanced Z (fun seed => seed) lcg_interval
                lcg_interval_range 7 ltac:(lia)) as H.
  destruct (category_split Z (fun seed => seed) lcg_interval 1600 400)
    as [train valid].
  destruct H as (H1 & H2 & _ & _ & _ & _ & H3).
  split; [exact H1 | split; [exact H2 | exact H3]].
Defined.

End GeneratorExamples.

(** ** The consistency check *)

Section ConsistencyFacts.

Import String Exn Py Consistency.
Local Open Scope string_scope.

(** The two names of a pair pass the check exactly when they reduce to
    the same string. *)
Lemma check_names_ok x y :
  check_names (x, y) = Ok tt <-> reduced_name x = reduced_name y.
Proof.
  unfold check_names. cbn [map fst snd nodup In].
  destruct (string_dec (reduced_name x) (reduced_name y)) as [E | NE].
  - rewrite E.
    destruct (in_dec string_dec (reduced_name y) [reduced_name y]) as [_ | N].
    + cbn. tauto.
    + exfalso. apply N. now left.
  - destruct (in_dec string_dec (reduced_name x) [reduced_name y]) as [I | _].
    + destruct I as [I | []]. now symmetry in I.
    + cbn. split; [discriminate | tauto].
Qed.

(** An iterator is empty once it was listed. *)
Lemma check_consistency_zip (xs ys : list string) n :
  _check_consistency (zip xs ys) n
  = if Z.eqb (Z.of_nat (Nat.min (List.length xs) (List.length ys))) n
    then Ok tt
    else Raise (AssertionError "Files are missing").
Proof.
  unfold _check_consistency, zip, consume.
  rewrite length_combine.
  now destruct (Z.eqb _ n).
Qed.

(** C6, as the code has it: the check of the zipped lists fails with
    "Files are missing" exactly when the number of pairs (the length of
    the shorter list) differs from the expected count, and passes
    otherwise; the lists ["img_001.jpg"] / ["img_001_fixMap.png"] pass
    with the expected count 1. *)
Theorem C6_count_check_counts_pairs (xs ys : list string) (n : Z) :
  (_check_consistency (zip xs ys) n = Raise (AssertionError "Files are missing")
   <-> Z.of_nat (Nat.min (List.length xs) (List.length ys)) <> n)
  /\ (_check_consistency (zip xs ys) n = Ok tt
      <-> Z.of_nat (Nat.min (List.length xs) (List.length ys)) = n)
  /\ _check_consistency (zip ["img_001.jpg"] ["img_001_fixMap.png"]) 1 = Ok tt.
Proof.
  rewrite check_consistency_zip.
  destruct (Z.eqb_spec (Z.of_nat (Nat.min (List.length xs) (List.length ys))) n)
    as [E | NE].
  - repeat split; try (intros; congruence); try discriminate.
  - repeat split; try (intros; congruence); try discriminate.
Qed.

(** C6, as stated, fails: the two lists hold two files in all, the
    expected count is 2, and the check raises "Files are missing". *)
Lemma C6_pair_counted_as_two_fails :
  Z.of_nat (List.length ["img_001.jpg"] + List.length ["img_001_fixMap.png"]) = 2%Z
  /\ _check_consistency (zip ["img_001.jpg"] ["img_001_fixMap.png"]) 2
     = Raise (AssertionError "Files are missing").
Proof. split; reflexivity. Qed.

(** C7, on the code: with the zipped lists as argument (what every
    caller passes) the check never raises "File name mismatch"; the pair
    "img_001.jpg" / "img_002_fixMap.png" passes with the expected count
    1, although the comparison of its two names fails, and the same
    pair given as a list is rejected. *)
Theorem C7_zipped_argument_skips_name_check (xs ys : list string) (n : Z) :
  _check_consistency (zip xs ys) n <> Raise (AssertionError "File name mismatch")
  /\ _check_consistency (zip ["img_001.jpg"] ["img_002_fixMap.png"]) 1 = Ok tt
  /\ check_names ("img_001.jpg", "img_002_fixMap.png")
     = Raise (AssertionError "File name mismatch")
  /\ _check_consistency (Sequence [("img_001.jpg", "img_002_fixMap.png")]) 1
     = Raise (AssertionError "File name mismatch").
Proof.
  split; [| repeat split; reflexivity].
  rewrite check_consistency_zip.
  destruct (Z.eqb _ n); discriminate.
Qed.

End ConsistencyFacts.

(** ** Batching and the datasets *)

Section PipelineFacts.

Import String Exn Py Num Geometry Consistency Partition Pipeline.
Local Open Scope string_scope.

Lemma batch_from_concat {A} fuel size (l : list A) :
  (0 < size)%nat -> (List.length l <= fuel)%nat ->
  List.concat (batch_from fuel size l) = l.
Proof.
  intros Hs. revert l. induction fuel as [| fuel IH]; intros l Hl.
  - destruct l; [reflexivity | cbn [List.length] in Hl; lia].
  - destruct l as [| a l]; [reflexivity |].
    cbn [batch_from List.concat].
    rewrite IH.
    + apply firstn_skipn.
    + rewrite length_skipn. cbn [List.length] in *. lia.
Qed.

(** Batching keeps the elements and their order. *)
Lemma batch_concat {A} size (l : list A) :
  (0 < size)%nat -> List.concat (batch size l) = l.
Proof. intros Hs. now apply batch_from_concat. Qed.

Lemma batch_from_nonempty {A} fuel size (l : list A) :
  (0 < size)%nat -> Forall (fun b => b <> []) (batch_from fuel size l).
Proof.
  intros Hs. revert l. induction fuel as [| fuel IH]; intros l.
  - destruct l; constructor.
  - destruct l as [| a l]; [constructor |].
    cbn [batch_from]. constructor; [| apply IH].
    destruct size; [lia | discriminate].
Qed.

Lemma Forall_cut {A} (P : A -> Prop) k (l : list A) :
  Forall P l -> Forall P (firstn k l) /\ Forall P (skipn k l).
Proof.
  intros Hl. rewrite <- (firstn_skipn k l) in Hl.
  now apply Forall_app in Hl.
Qed.

Lemma batch_from_Forall {A} (P : A -> Prop) fuel size (l : list A) :
  Forall P l -> Forall (Forall P) (batch_from fuel size l).
Proof.
  revert l. induction fuel as [| fuel IH]; intros l Hl.
  - destruct l; constructor.
  - destruct l as [| a l]; [constructor |].
    cbn [batch_from].
    destruct (Forall_cut P size (a :: l) Hl) as [Hf Hs].
    constructor; [exact Hf | now apply IH].
Qed.

(** A stream of 257 frames gives three batches, of 100, 100 and 57
    frames, in the order of the stream. *)
Example batch_257_frames :
  map (@List.length nat) (batch 100 (seq 0 257)) = [100; 100; 57]%nat
  /\ List.concat (batch 100 (seq 0 257)) = seq 0 257.
Proof. split; vm_compute; reflexivity. Qed.

Lemma fetch_dataset_ok w files target_size shuffle video_file online :
  capture w video_file <> [] ->
  exists original_size,
    _fetch_dataset w files target_size shuffle video_file online
    = Ok (batch 100
            (map (fun frame => (frame, original_size, [video_file]))
               (map (prepared_frame w target_size) (capture w video_file)))).
Proof.
  intros Hne. unfold _fetch_dataset, _tf_parse_video_files, _parse_video_files.
  destruct (rev (capture w video_file)) as [| last_frame others] eqn:E.
  - exfalso. apply Hne.
    rewrite <- (rev_involutive (capture w video_file)), E. reflexivity.
  - exists (shape2 last_frame). reflexivity.
Qed.

Lemma fetch_dataset_no_frame w files target_size shuffle video_file online :
  capture w video_file = [] ->
  _fetch_dataset w files target_size shuffle video_file online
  = Raise (InvalidArgumentError "need at least one array to stack").
Proof.
  intros E. unfold _fetch_dataset, _tf_parse_video_files, _parse_video_files.
  rewrite E. reflexivity.
Qed.

(** C8, on the code: [_fetch_dataset] returns the same dataset whatever
    the shuffle flag; with the flag set (training mode) its batches,
    one after the other, are the prepared frames in the order the
    decoder read them, and the call raises when there is no frame. *)
Theorem C8_fetch_dataset_never_shuffles
    (w : world) (files : files_arg) (target_size : Z * Z) (shuffle : bool)
    (video_file : string) (online : bool) :
  _fetch_dataset w files target_size shuffle video_file online
  = _fetch_dataset w files target_size false video_file online
  /\ match _fetch_dataset w files target_size true video_file online with
     | Ok batches =>
         map (fun e : element => fst (fst e)) (List.concat batches)
         = map (prepared_frame w target_size) (capture w video_file)
     | Raise _ => capture w video_file = []
     end.
Proof.
  split; [reflexivity |].
  destruct (capture w video_file) as [| frame frames] eqn:E.
  - rewrite fetch_dataset_no_frame by assumption. reflexivity.
  - destruct (fetch_dataset_ok w files target_size true video_file online)
      as [original_size ->]; [rewrite E; discriminate |].
    rewrite batch_concat by lia. rewrite map_map. cbn [fst].
    rewrite E. rewrite map_id. reflexivity.
Qed.

(** *** The training classes *)

(** C10, as the code has it: for each training class, [load_data] runs
    the steps before its first call of [_fetch_dataset] (file discovery,
    consistency check, selection of the excerpt); an exception of theirs
    propagates, and otherwise the call, which gives no [video_file],
    raises the missing-argument [TypeError].  In no case does
    [load_data] return a pair of datasets. *)
Theorem C10_load_data_never_returns
    (w : world) (c : training_class) (data_path : string) :
  load_data w c data_path
  = (_ <- before_first_fetch w c data_path ;; Raise missing_video_file)
  /\ is_ok (load_data w c data_path) = false.
Proof.
  assert (E : load_data w c data_path
              = (_ <- before_first_fetch w c data_path ;;
                 Raise missing_video_file)).
  { destruct c; unfold load_data, before_first_fetch.
    - unfold SALICON_load_data.
      destruct (_get_file_list w (data_path ++ "stimuli/train"));
        [| reflexivity]. cbn [bind].
      destruct (_get_file_list w (data_path ++ "saliency/train"));
        [| reflexivity]. cbn [bind].
      destruct (_check_consistency _ 10000) as [[] |]; reflexivity.
    - unfold MIT1003_load_data.
      destruct (_get_file_list w (data_path ++ "stimuli")) as [list_x |];
        [| reflexivity]. cbn [bind].
      destruct (_get_file_list w (data_path ++ "saliency")) as [list_y |];
        [| reflexivity]. cbn [bind].
      destruct (_check_consistency _ 1003) as [[] |]; [| reflexivity].
      cbn [bind]. cbv zeta.
      destruct (select list_x _); [| reflexivity]. cbn [bind].
      destruct (select list_y _); reflexivity.
    - unfold CAT2000_load_data.
      destruct (_get_file_list w (data_path ++ "stimuli")) as [list_x |];
        [| reflexivity]. cbn [bind].
      destruct (_get_file_list w (data_path ++ "saliency")) as [list_y |];
        [| reflexivity]. cbn [bind].
      destruct (_check_consistency _ 2000) as [[] |]; [| reflexivity].
      cbn [bind]. cbv zeta.
      destruct (category_split _ _ _ 1600 400) as [train_excerpt valid_excerpt].
      cbn [fst].
      destruct (select list_x train_excerpt); [| reflexivity]. cbn [bind].
      destruct (select list_y train_excerpt); reflexivity. }
  split; [exact E |].
  rewrite E. now destruct (before_first_fetch w c data_path).
Qed.

(** C10, as stated, fails: with no data on disk the call raises
    [FileNotFoundError], not the missing-argument error. *)
Lemma C10_no_data_raises_not_found :
  load_data empty_world SALICON "data/"
  = Raise (FileNotFoundError "No data was found")
  /\ load_data empty_world SALICON "data/" <> Raise missing_video_file.
Proof. split; [reflexivity | discriminate]. Qed.

(** With the 1003 stimuli and maps of MIT1003 on disk, the call reaches
    [_fetch_dataset] and raises the missing-argument error. *)
Example load_data_mit1003_missing_argument :
  load_data mit1003_world MIT1003 "data/" = Raise missing_video_file.
Proof. vm_compute. reflexivity. Qed.

(** *** The inference loop *)

Lemma run_batches_collected w vf pending acc last :
  Forall (batch_of vf) pending ->
  pending <> [] \/ collected vf (acc, last) ->
  collected vf (run_batches w pending acc last).
Proof.
  revert acc last. induction pending as [| b rest IH]; intros acc last Hb Hc.
  - destruct Hc as [Hc | Hc]; [congruence | exact Hc].
  - cbn [run_batches].
    inversion Hb as [| ? ? [Hne Hpaths] Hrest]; subst.
    apply IH; [assumption |]. right. split.
    + cbn [fst]. intros E. now apply app_eq_nil in E as [_ E].
    + destruct b as [| e b]; [congruence |].
      inversion Hpaths as [| ? ? He _]; subst.
      cbn [snd map]. rewrite He. eauto.
Qed.

Lemma process_video_ok w test_list_x target_size vf :
  capture w vf <> [] ->
  exists out,
    process_video w (test_set_of w test_list_x target_size) vf = Ok out
    /\ source out = vf.
Proof.
  intros Hne. unfold process_video, test_set_of, call__fetch_dataset.
  destruct (fetch_dataset_ok w (FileList test_list_x) target_size false vf true
              Hne) as [original_size ->].
  cbn [bind].
  set (elements := map (fun frame => (frame, original_size, [vf]))
                     (map (prepared_frame w target_size) (capture w vf))).
  assert (Hbatches : Forall (batch_of vf) (batch 100 elements)).
  { apply Forall_forall. intros b Hb. split.
    - pose proof (batch_from_nonempty (List.length elements) 100 elements
                    ltac:(lia)) as Hn.
      rewrite Forall_forall in Hn. now apply Hn.
    - assert (Hall : Forall (fun e : element => snd e = [vf]) elements).
      { unfold elements. apply Forall_forall. intros e He.
        apply in_map_iff in He as (frame & <- & _). reflexivity. }
      pose proof (batch_from_Forall _ (List.length elements) 100 elements Hall)
        as Hp.
      rewrite Forall_forall in Hp. now apply Hp. }
  assert (Hsome : batch 100 elements <> []).
  { unfold batch, elements.
    destruct (capture w vf) as [| frame frames]; [congruence |].
    cbn. discriminate. }
  pose proof (run_batches_collected w vf (batch 100 elements) [] ([], [])
                Hbatches (or_introl Hsome)) as [Hfst (size & sizes & paths & Hsnd)].
  destruct (run_batches w (batch 100 elements) [] ([], []))
    as [saliency_images_list [target_shape np_file_path]].
  cbn [fst snd] in Hfst, Hsnd. injection Hsnd as -> ->.
  destruct saliency_images_list as [| first_batch others]; [congruence |].
  eexists. split; reflexivity.
Qed.

Lemma process_video_no_frame w test_list_x target_size vf :
  capture w vf = [] ->
  process_video w (test_set_of w test_list_x target_size) vf
  = Raise (InvalidArgumentError "need at least one array to stack").
Proof.
  intros E. unfold process_video, test_set_of, call__fetch_dataset.
  now rewrite fetch_dataset_no_frame.
Qed.

Lemma run_videos_stops w test_list_x target_size before bad after written :
  Forall (fun vf => capture w vf <> []) before ->
  capture w bad = [] ->
  exists outs,
    run_videos w (test_set_of w test_list_x target_size)
      (before ++ bad :: after)%list written
    = ((written ++ outs)%list,
       Raise (InvalidArgumentError "need at least one array to stack"))
    /\ map source outs = before.
Proof.
  intros Hgood Hbad. revert written.
  induction Hgood as [| vf before Hvf Hgood IH]; intros written.
  - exists []. cbn [app run_videos].
    rewrite process_video_no_frame by assumption.
    now rewrite app_nil_r.
  - cbn [app run_videos].
    destruct (process_video_ok w test_list_x target_size vf Hvf)
      as (out & -> & Hsrc).
    destruct (IH (written ++ [out])%list) as (outs & -> & Hmap).
    exists (out :: outs). rewrite <- app_assoc. cbn [app map].
    now rewrite Hsrc, Hmap.
Qed.




End PipelineFacts.

(** ** File discovery *)

Section FileListFacts.

Import String Exn Pipeline.
Local Open Scope string_scope.

Lemma insert_sorted_permutation x l : Permutation (insert_sorted x l) (x :: l).
Proof.
  induction l as [| y l IH]; cbn [insert_sorted].
  - reflexivity.
  - destruct (String.leb x y); [reflexivity |].
    eapply perm_trans; [apply perm_skip, IH | apply perm_swap].
Qed.

Lemma sort_permutation l : Permutation (sort l) l.
Proof.
  induction l as [| x l IH]; cbn [sort fold_right].
  - reflexivity.
  - eapply perm_trans; [apply insert_sorted_permutation |].
    now apply perm_skip.
Qed.

Lemma insert_sorted_sorted x l :
  Sorted.Sorted string_le l -> Sorted.Sorted string_le (insert_sorted x l).
Proof.
  induction 1 as [| y l Hs IH Hhd]; cbn [insert_sorted].
  - repeat constructor.
  - destruct (String.leb x y) eqn:E.
    + constructor; [now constructor | now constructor].
    + assert (Hyx : string_le y x).
      { destruct (String.leb_total x y) as [H | H]; [congruence | exact H]. }
      constructor; [exact IH |].
      destruct l as [| z l]; cbn [insert_sorted].
      * now constructor.
      * inversion Hhd; subst. destruct (String.leb x z); now constructor.
Qed.

Lemma sort_sorted l : Sorted.Sorted string_le (sort l).
Proof.
  induction l as [| x l IH]; cbn [sort fold_right].
  - constructor.
  - now apply insert_sorted_sorted.
Qed.

(** The list [_get_file_list] returns is sorted and never empty; it
    raises "No data was found" when there is nothing to return. *)
Theorem get_file_list_sorted_nonempty (w : world) (data_path : string) :
  match _get_file_list w data_path with
  | Ok data_list => data_list <> [] /\ Sorted.Sorted string_le data_list
  | Raise e => e = FileNotFoundError "No data was found"
  end.
Proof.
  unfold _get_file_list.
  match goal with |- context [sort ?l] => pose proof (sort_sorted l) as Hs;
    destruct (sort l) as [| x rest] end.
  - reflexivity.
  - split; [discriminate | exact Hs].
Qed.

(** A directory with one accepted and one other file gives the accepted
    one; an empty directory raises. *)
Example get_file_list_examples :
  _get_file_list
    (example_world (fun path => [(path, ["a.PNG"; "notes.txt"])]) (fun _ => []))
    "dir" = Ok ["dir/a.PNG"]
  /\ _get_file_list (example_world (fun path => [(path, [])]) (fun _ => []))
       "dir" = Raise (FileNotFoundError "No data was found").
Proof. split; reflexivity. Qed.

End FileListFacts.

(** ** More on the geometry *)

Section GeometryMore.

Import Num Py Geometry.

Variable cv2_kernel : cv2_interpolation -> image -> Z * Z -> Z -> Z -> Z -> Q.
Variable tf_kernel : tf_method -> image -> Z * Z -> Z -> Z -> Z -> Q.

Abbreviation resize := (_resize_image cv2_kernel tf_kernel).

(** Rounding a value that is an integer gives that integer. *)
Lemma round_half_even_int q t : (q == inject_Z t)%Q -> round_half_even q = t.
Proof.
  intros E. apply Z.le_antisymm.
  - apply round_half_even_le_int. rewrite E. apply Qle_refl.
  - apply round_half_even_ge_int. rewrite E. apply Qle_refl.
Qed.

(** The scaling factor is one of the two ratios, so one axis of the new
    size is the target's. *)
Lemma scaled_size_meets_target ch cw th tw overfull :
  0 < ch -> 0 < cw ->
  let new := scaled_size (ch, cw) (target_ratio (ch, cw) (th, tw) overfull) in
  fst new = th \/ snd new = tw.
Proof.
  intros Hh Hw. unfold scaled_size, target_ratio. cbn [fst snd].
  destruct overfull.
  - destruct (Q.max_spec (truediv th ch) (truediv tw cw)) as [[_ E] | [_ E]].
    + right. apply round_half_even_int. rewrite E. now apply mul_truediv.
    + left. apply round_half_even_int. rewrite E. now apply mul_truediv.
  - destruct (Q.min_spec (truediv th ch) (truediv tw cw)) as [[_ E] | [_ E]].
    + left. apply round_half_even_int. rewrite E. now apply mul_truediv.
    + right. apply round_half_even_int. rewrite E. now apply mul_truediv.
Qed.

(** The size [_resize_image] gives an image of positive size, on either
    backend: one axis has exactly the target's length; the other one is
    not longer than the target's when fitting ([overfull] false) and not
    shorter when covering ([overfull] true). *)
Theorem resize_meets_target_on_one_axis
    (im : image) (target_size : Z * Z) (overfull is_numpy : bool) :
  0 < rows im -> 0 < cols im ->
  let resized := resize im target_size overfull is_numpy in
  (rows resized = fst target_size \/ cols resized = snd target_size)
  /\ (if overfull
      then fst target_size <= rows resized /\ snd target_size <= cols resized
      else rows resized <= fst target_size /\ cols resized <= snd target_size).
Proof.
  intros Hr Hc resized.
  pose proof (resize_shape cv2_kernel tf_kernel im target_size overfull is_numpy)
    as Hs.
  fold resized in Hs. destruct target_size as [th tw].
  assert (Er : rows resized
               = fst (scaled_size (shape2 im)
                        (target_ratio (shape2 im) (th, tw) overfull)))
    by (rewrite <- Hs; reflexivity).
  assert (Ec : cols resized
               = snd (scaled_size (shape2 im)
                        (target_ratio (shape2 im) (th, tw) overfull)))
    by (rewrite <- Hs; reflexivity).
  rewrite Er, Ec. unfold shape2. cbn [fst snd]. split.
  - apply (scaled_size_meets_target (rows im) (cols im) th tw overfull Hr Hc).
  - destruct overfull.
    + apply (scaled_size_grow (rows im) (cols im) th tw Hr Hc).
    + apply (scaled_size_shrink (rows im) (cols im) th tw Hr Hc).
Qed.

Lemma clip_bounds lo hi v : (lo <= hi)%Q -> (lo <= clip lo hi v <= hi)%Q.
Proof.
  intros H. unfold clip. split.
  - apply Q.min_glb; [apply Q.le_max_r | exact H].
  - apply Q.le_min_r.
Qed.

Lemma resize_clipped im target_size overfull is_numpy i j k :
  (0 <= px (resize im target_size overfull is_numpy) i j k <= 255)%Q.
Proof.
  unfold _resize_image. destruct is_numpy; cbn zeta.
  - cbn [clip_image px]. now apply clip_bounds.
  - destruct (_ || _); cbn [clip_image px]; now apply clip_bounds.
Qed.

(** Every value of a resized image lies between 0 and 255, on either
    backend and for either kernel, whatever the kernel computes (a cubic
    kernel can overshoot the range of its input). *)
Theorem resize_values_clipped
    (im : image) (target_size : Z * Z) (overfull is_numpy : bool) (i j k : Z) :
  (0 <= px (resize im target_size overfull is_numpy) i j k <= 255)%Q.
Proof. apply resize_clipped. Qed.

(** The crop undoes the padding: an image padded to a target that is at
    least as large, then cropped to its own size, has its shape, its
    channels and its values again. *)
Theorem crop_undoes_pad
    (im : image) (target_size : Z * Z) (is_numpy : bool) :
  0 <= rows im <= fst target_size ->
  0 <= cols im <= snd target_size ->
  let back :=
    _crop_image (pad_step is_numpy im target_size) (shape2 im) is_numpy in
  shape2 back = shape2 im
  /\ chans back = chans im
  /\ (forall i j k, 0 <= i < rows im -> 0 <= j < cols im ->
        px back i j k = px im i j k).
Proof.
  destruct target_size as [th tw]. cbn [fst snd]. intros Hr Hc.
  assert (Hp : pad_step is_numpy im (th, tw) = _pad_image im (th, tw))
    by (unfold pad_step; now destruct is_numpy).
  cbv zeta. rewrite Hp. clear Hp.
  pose proof (floor_half_nonneg (th - rows im) ltac:(lia)) as Ht.
  pose proof (floor_half_nonneg (tw - cols im) ltac:(lia)) as Hl.
  pose proof (floor_ceil_half (th - rows im)) as Hv.
  pose proof (floor_ceil_half (tw - cols im)) as Hh.
  pose proof (ceil_half_nonneg (th - rows im) ltac:(lia)) as Hb.
  pose proof (ceil_half_nonneg (tw - cols im) ltac:(lia)) as Hri.
  unfold _crop_image, _pad_image, padding, pad, shape2.
  cbn [fst snd rows cols].
  set (t := Qfloor (truediv (th - rows im) 2)) in *.
  set (l := Qfloor (truediv (tw - cols im) 2)) in *.
  set (b := Qceiling (truediv (th - rows im) 2)) in *.
  set (r := Qceiling (truediv (tw - cols im) 2)) in *.
  replace (t + rows im + b - rows im) with (th - rows im) by lia.
  replace (l + cols im + r - cols im) with (tw - cols im) by lia.
  fold t l.
  unfold slice2, slice_axis, slice_index. cbn [rows cols chans px].
  destruct (Z.ltb_spec t 0); [lia |].
  destruct (Z.ltb_spec l 0); [lia |].
  destruct (Z.ltb_spec (t + rows im) 0); [lia |].
  destruct (Z.ltb_spec (l + cols im) 0); [lia |].
  cbn [fst snd rows cols chans px].
  split; [f_equal; lia |]. split; [reflexivity |].
  intros i j k Hi Hj.
  rewrite !Z.min_l by lia.
  destruct (Z.leb_spec t (t + i)); [| lia].
  destruct (Z.ltb_spec (t + i) (t + rows im)); [| lia].
  destruct (Z.leb_spec l (l + j)); [| lia].
  destruct (Z.ltb_spec (l + j) (l + cols im)); [| lia].
  cbn [andb]. f_equal; lia.
Qed.

Lemma floor_half_bounds d :
  2 * Qfloor (truediv d 2) <= d <= 2 * Qfloor (truediv d 2) + 1.
Proof.
  rewrite floor_half.
  pose proof (Z.div_mod d 2). pose proof (Z.mod_pos_bound d 2). lia.
Qed.

(** The window of the crop on one axis of length [n], for the target
    length [th]. *)
Lemma crop_axis_length n th :
  0 <= n ->
  let t := Qfloor (truediv (n - th) 2) in
  let len := snd (slice_axis n t (t + th)) in
  0 <= len <= Z.min n (Z.max 0 th) /\ (n < th -> len < th).
Proof.
  intros Hn. cbv zeta.
  pose proof (floor_half_bounds (n - th)) as Ht.
  set (t := Qfloor (truediv (n - th) 2)) in *.
  unfold slice_axis, slice_index. cbn [snd].
  destruct (Z.ltb_spec t 0); destruct (Z.ltb_spec (t + th) 0); lia.
Qed.

(** The crop never returns more rows or columns than the image has, nor
    more than the target asks for; an image that is smaller than the
    target on an axis gives a result smaller than the target on that
    axis, and no exception. *)
Theorem crop_never_enlarges
    (im : image) (target_size : Z * Z) (is_numpy : bool) :
  0 <= rows im -> 0 <= cols im ->
  let out := _crop_image im target_size is_numpy in
  (0 <= rows out <= Z.min (rows im) (Z.max 0 (fst target_size))
   /\ (rows im < fst target_size -> rows out < fst target_size))
  /\ (0 <= cols out <= Z.min (cols im) (Z.max 0 (snd target_size))
      /\ (cols im < snd target_size -> cols out < snd target_size)).
Proof.
  destruct target_size as [th tw]. cbn [fst snd]. intros Hr Hc.
  pose proof (crop_axis_length (rows im) th Hr) as Hrows.
  pose proof (crop_axis_length (cols im) tw Hc) as Hcols.
  cbv zeta in *. unfold _crop_image, slice2, shape2. cbn [fst snd].
  destruct (slice_axis (rows im) _ _) as [r0 nr].
  destruct (slice_axis (cols im) _ _) as [c0 nc].
  cbn [rows cols snd] in *. split; assumption.
Qed.

(** On a square image the array-backed path chooses as the
    tensor-backed one: the area kernel exactly when the computed size is
    smaller than the image. *)
Theorem square_image_choice_agrees
    (im : image) (target_size : Z * Z) (overfull : bool) :
  rows im = cols im ->
  let new := scaled_size (shape2 im)
               (target_ratio (shape2 im) target_size overfull) in
  let shrinking := (fst new <? rows im) || (snd new <? cols im) in
  resize im target_size overfull true
  = clip_image 0 255
      (cv2_resize cv2_kernel im (snd new, fst new)
         (if shrinking then INTER_AREA else INTER_CUBIC))
  /\ resize im target_size overfull false
     = clip_image 0 255
         (tf_resize tf_kernel
            (if shrinking then resize_area else resize_bicubic) im new).
Proof.
  intros Hsq new shrinking. split.
  - rewrite np_resize_choice. fold new.
    assert (E : fst new = snd new).
    { unfold new, scaled_size, shape2. cbn [fst snd]. now rewrite Hsq. }
    unfold shrinking. rewrite E, Hsq. reflexivity.
  - rewrite tf_resize_choice. reflexivity.
Qed.

End GeometryMore.

(** ** More on decoding, batching and post-processing *)

Section PipelineMore.

Import String Exn Py Num Geometry Consistency Partition Pipeline Callers.
Local Open Scope string_scope.

Lemma batch_from_empty {A} fuel size : @batch_from A fuel size [] = [].
Proof. now destruct fuel. Qed.

Lemma batch_from_lengths {A} fuel size (l : list A) :
  (0 < size)%nat -> (List.length l <= fuel)%nat ->
  map (@List.length A) (batch_from fuel size l)
  = batch_sizes size (List.length l).
Proof.
  intros Hs. revert l. induction fuel as [| fuel IH]; intros l Hl.
  - destruct l; [| cbn [List.length] in Hl; lia].
    unfold batch_sizes. cbn [List.length batch_from map].
    rewrite Nat.Div0.div_0_l, Nat.Div0.mod_0_l. reflexivity.
  - destruct l as [| a l].
    + unfold batch_sizes. cbn [List.length batch_from map].
      rewrite Nat.Div0.div_0_l, Nat.Div0.mod_0_l. reflexivity.
    + set (n := List.length (a :: l)) in *.
      cbn [batch_from map]. rewrite IH by (rewrite length_skipn; lia).
      rewrite length_firstn, length_skipn. fold n. unfold batch_sizes.
      destruct (Nat.lt_ge_cases n size) as [Hlt | Hge].
      * rewrite Nat.min_r by lia.
        replace (n - size)%nat with 0%nat by lia.
        rewrite Nat.Div0.div_0_l, Nat.Div0.mod_0_l.
        rewrite (Nat.div_small n size), (Nat.mod_small n size) by lia.
        assert (Hn : (0 < n)%nat) by (unfold n; cbn [List.length]; lia).
        destruct (Nat.eqb_spec n 0); [lia |]. reflexivity.
      * rewrite Nat.min_l by lia.
        assert (Hd : (n / size = S ((n - size) / size))%nat).
        { replace n with (1 * size + (n - size))%nat at 1 by lia.
          rewrite Nat.div_add_l by lia. reflexivity. }
        assert (Hm : (n mod size = (n - size) mod size)%nat).
        { replace n with ((n - size) + 1 * size)%nat at 1 by lia.
          apply Nat.Div0.mod_add. }
        rewrite Hd, Hm. reflexivity.
Qed.

(** [dataset.batch(size)] keeps the elements and their order, and cuts
    them into [len / size] batches of [size] elements followed, when
    [size] does not divide [len], by one batch of [len mod size]. *)
Theorem batch_keeps_order_and_sizes {A : Type} (size : nat) (l : list A) :
  (0 < size)%nat ->
  List.concat (batch size l) = l
  /\ map (@List.length A) (batch size l) = batch_sizes size (List.length l).
Proof.
  intros Hs. split.
  - now apply batch_concat.
  - now apply batch_from_lengths.
Qed.

(** A stream of 257 frames in batches of 100. *)
Lemma batch_keeps_order_and_sizes_257 :
  List.concat (batch 100 (seq 0 257)) = seq 0 257
  /\ map (@List.length nat) (batch 100 (seq 0 257)) = [100; 100; 57]%nat.
Proof.
  exact (batch_keeps_order_and_sizes 100 (seq 0 257) (Nat.lt_0_succ 99)).
Defined.

Lemma prepared_frame_shape w target_size frame :
  shape2 (prepared_frame w target_size frame) = target_size
  /\ chans (prepared_frame w target_size frame) = chans frame.
Proof.
  unfold prepared_frame. cbv zeta. rewrite np_pad_image_eq. split.
  - apply pad_image_shape.
  - unfold _pad_image, padding, pad. cbn [chans].
    now rewrite resize_chans.
Qed.



(** *** Post-processing of a predicted map *)

Lemma round_half_even_range q lo hi :
  (inject_Z lo <= q <= inject_Z hi)%Q -> lo <= round_half_even q <= hi.
Proof.
  intros [H1 H2]. split.
  - now apply round_half_even_ge_int.
  - now apply round_half_even_le_int.
Qed.



(** *** Reading the images of a training sample *)

Section ImageFilesFacts.

Variable read_image : string -> Z -> image.

Abbreviation parse := (parse_from read_image).

(** What the loop appends for the file at a position after the first. *)
Lemma parse_from_later w count files target_size image_list original_size :
  0 < count ->
  exists news,
    fst (parse w count files target_size image_list original_size)
    = (image_list ++ news)%list
    /\ List.length news = List.length files
    /\ Forall (fun im => shape2 im = target_size /\ chans im = 1) news
    /\ snd (parse w count files target_size image_list original_size)
       = match rev files with
         | [] => original_size
         | last_file :: _ => Some (shape2 (decode read_image last_file 1))
         end.
Proof.
  revert count image_list original_size.
  induction files as [| filename rest IH];
    intros count image_list original_size Hcount.
  - exists []. cbn [parse_from fst snd rev]. rewrite app_nil_r.
    repeat split. constructor.
  - cbn [parse_from]. cbv zeta.
    destruct (Z.eqb_spec count 0) as [-> | _]; [lia |].
    set (image := _pad_image _ target_size).
    destruct (IH (count + 1)%Z (image_list ++ [image])%list
                (Some (shape2 (decode read_image filename 1)))
                ltac:(lia)) as (news & Hfst & Hlen & Hall & Hsnd).
    exists (image :: news). rewrite Hfst, Hsnd, <- app_assoc.
    split; [reflexivity |]. split; [cbn [List.length]; now rewrite Hlen |].
    split.
    + constructor; [| exact Hall]. split.
      * apply pad_image_shape.
      * unfold image, _pad_image, padding, pad. cbn [chans].
        now rewrite resize_chans.
    + cbn [rev]. destruct (rev rest) as [| last_file others]; reflexivity.
Qed.


End ImageFilesFacts.

End PipelineMore.

(** ** More on the file lists and their check *)

Section FilesMore.

Import String Ascii Exn Py Consistency Pipeline Callers.
Local Open Scope string_scope.

(** [_get_file_list] on a path that is a file returns that path alone,
    whatever its extension.  On any other path it returns the accepted
    files found under it, each once per occurrence, sorted, and raises
    "No data was found" exactly when there is none. *)
Theorem get_file_list_complete (w : world) (data_path : string) :
  match isfile w data_path, _get_file_list w data_path with
  | true, r => r = Ok [data_path]
  | false, Ok data_list =>
      Permutation data_list (collected_paths w data_path)
      /\ Sorted.Sorted string_le data_list
      /\ data_list <> []
  | false, Raise e =>
      collected_paths w data_path = []
      /\ e = FileNotFoundError "No data was found"
  end.
Proof.
  unfold _get_file_list. fold (collected_paths w data_path).
  destruct (isfile w data_path); [reflexivity |].
  pose proof (sort_permutation (collected_paths w data_path)) as Hp.
  pose proof (sort_sorted (collected_paths w data_path)) as Hs.
  destruct (sort (collected_paths w data_path)) as [| x rest].
  - split; [| reflexivity].
    apply Permutation_nil. now symmetry.
  - split; [exact Hp |]. split; [exact Hs | discriminate].
Qed.

Lemma substring_all s : substring 0 (length s) s = s.
Proof. induction s as [| c s IH]; cbn; [reflexivity | now rewrite IH]. Qed.

Lemma length_append a b : length (a ++ b) = (length a + length b)%nat.
Proof. induction a as [| c a IH]; cbn; [reflexivity | now rewrite IH]. Qed.

Lemma substring_skip a b :
  substring (length a) (length b) (a ++ b) = b.
Proof.
  induction a as [| c a IH]; cbn [length append substring].
  - apply substring_all.
  - exact IH.
Qed.

Lemma endswith_append a b : endswith (a ++ b) b = true.
Proof.
  unfold endswith. rewrite length_append.
  replace (length a + length b - length b)%nat with (length a) by lia.
  rewrite substring_skip, String.eqb_refl.
  destruct (Nat.leb_spec (length b) (length a + length b)); [reflexivity | lia].
Qed.

Lemma lower_append a b : lower (a ++ b) = lower a ++ lower b.
Proof. induction a as [| c a IH]; cbn; [reflexivity | now rewrite IH]. Qed.

(** A file whose name ends with one of the four extensions, in any mix
    of upper and lower case, is accepted. *)
Theorem accepted_extension (name ext : string) :
  In (lower ext) [".png"; ".jpg"; ".jpeg"; ".avi"] ->
  accepted (name ++ ext) = true.
Proof.
  intros Hext. unfold accepted. apply existsb_exists.
  exists (lower ext). split; [exact Hext |].
  rewrite lower_append. apply endswith_append.
Qed.

Lemma accepted_extension_example : accepted ("Holiday.Photo" ++ ".JpEg") = true.
Proof.
  apply (accepted_extension "Holiday.Photo" ".JpEg").
  cbn. tauto.
Defined.

Lemma check_all_names_spec tuples :
  match check_all_names tuples with
  | Ok _ =>
      Forall (fun t => reduced_name (fst t) = reduced_name (snd t)) tuples
  | Raise e =>
      e = AssertionError "File name mismatch"
      /\ Exists (fun t => reduced_name (fst t) <> reduced_name (snd t)) tuples
  end.
Proof.
  induction tuples as [| [x y] rest IH]; cbn [check_all_names].
  - constructor.
  - pose proof (check_names_ok x y) as Hxy.
    destruct (check_names (x, y)) as [[] | e] eqn:E; cbn [bind].
    + destruct (check_all_names rest) as [[] | e'].
      * constructor; [now apply Hxy | exact IH].
      * split; [apply IH |]. apply Exists_cons_tl, IH.
    + assert (He : e = AssertionError "File name mismatch").
      { unfold check_names in E.
        destruct (Nat.eqb _ 1); [discriminate | now injection E]. }
      split; [exact He |]. apply Exists_cons_hd. cbn [fst snd].
      intros Heq. apply Hxy in Heq. discriminate.
Qed.

(** When [_check_consistency] is given the pairs as a list: it returns
    exactly when the list has the expected number of pairs and the two
    names of every pair reduce to the same string; a wrong count is
    reported first, and a pair of different names otherwise. *)
Theorem check_consistency_on_a_list
    (pairs : list (string * string)) (n_total_files : Z) :
  match _check_consistency (Sequence pairs) n_total_files with
  | Ok _ =>
      Z.of_nat (List.length pairs) = n_total_files
      /\ Forall (fun t => reduced_name (fst t) = reduced_name (snd t)) pairs
  | Raise e =>
      (Z.of_nat (List.length pairs) <> n_total_files
       /\ e = AssertionError "Files are missing")
      \/ (Z.of_nat (List.length pairs) = n_total_files
          /\ e = AssertionError "File name mismatch"
          /\ Exists (fun t => reduced_name (fst t) <> reduced_name (snd t))
               pairs)
  end.
Proof.
  unfold _check_consistency. cbn [consume].
  destruct (Z.eqb_spec (Z.of_nat (List.length pairs)) n_total_files)
    as [E | NE]; cbn [negb].
  - pose proof (check_all_names_spec pairs) as H.
    destruct (check_all_names pairs) as [[] | e].
    + now split.
    + right. tauto.
  - left. now split.
Qed.

End FilesMore.

(** ** More on the category-interleaved split *)

Section CategorySplitMore.

Import Py Partition.

Variable rk_state : Type.
Variable RandomState : Z -> rk_state.
Variable rk_interval : Z -> rk_state -> Z * rk_state.

Hypothesis rk_interval_range :
  forall max prng, 0 <= max -> 0 <= fst (rk_interval max prng) <= max.

Abbreviation indices := (_get_random_indices rk_state RandomState rk_interval 100).

Lemma firstn_In_le {A} (l : list A) k k' a :
  (k <= k')%nat -> In a (firstn k l) -> In a (firstn k' l).
Proof.
  revert k k'. induction l as [| b l IH]; intros k k' Hk Ha.
  - now rewrite firstn_nil in *.
  - destruct k as [| k]; [easy |]. destruct k' as [| k']; [lia |].
    cbn [firstn In] in *. destruct Ha as [-> | Ha]; [now left |].
    right. apply (IH k k'); [lia | exact Ha].
Qed.

(** The two excerpts, as the offsets of one category moved into each of
    the 20 categories. *)
Lemma category_split_blocks n_train n_valid :
  let train_ratio := n_train * 100 / 2000 in
  let valid_ratio := n_valid * 100 / 2000 in
  0 < train_ratio <= 100 -> 0 < valid_ratio <= 100 ->
  category_split rk_state RandomState rk_interval n_train n_valid
  = (blocks (firstn (Z.to_nat train_ratio) indices) 0 20,
     blocks (skipn (100 - Z.to_nat valid_ratio) indices) 0 20).
Proof.
  intros rt rv Hrt Hrv. unfold category_split. fold rt rv.
  pose proof (get_random_indices_length rk_state RandomState rk_interval
                rk_interval_range 100) as Hlen.
  rewrite slice_prefix by (rewrite Hlen; lia).
  rewrite (slice_last indices rv) by (rewrite Hlen; lia).
  rewrite Hlen. change (Z.to_nat 100) with 100%nat.
  f_equal.
  - apply (add_category_offsets_tile rt _ 0 20); [lia |].
    rewrite length_firstn, Hlen. lia.
  - apply (add_category_offsets_tile rv _ 0 20); [lia |].
    rewrite length_skipn, Hlen. lia.
Qed.

(** The category-interleaved split for any assigned numbers of training
    and validation instances of at least 20 each and at most 2000
    together: each of the 20 categories gives [n_train * 100 // 2000]
    training and [n_valid * 100 // 2000] validation indices, so the
    lists hold 20 times these numbers of indices (fewer than assigned
    when an assigned number is no multiple of 20); no index is repeated
    or in both lists, and every index is below 2000. *)
Theorem category_split_for_any_assignment (n_train n_valid c : Z) :
  20 <= n_train -> 20 <= n_valid -> n_train + n_valid <= 2000 ->
  0 <= c < 20 ->
  let train_ratio := n_train * 100 / 2000 in
  let valid_ratio := n_valid * 100 / 2000 in
  let '(train, valid) :=
    category_split rk_state RandomState rk_interval n_train n_valid in
  length (filter (in_category c) train) = Z.to_nat train_ratio
  /\ length (filter (in_category c) valid) = Z.to_nat valid_ratio
  /\ length train = (20 * Z.to_nat train_ratio)%nat
  /\ length valid = (20 * Z.to_nat valid_ratio)%nat
  /\ NoDup train /\ NoDup valid
  /\ (forall i, In i train -> ~ In i valid)
  /\ (forall i, In i train \/ In i valid -> 0 <= i < 2000).
Proof.
  intros Ht Hv Hsum Hc rt rv.
  assert (Ert : rt = n_train / 20).
  { unfold rt. change 2000 with (20 * 100).
    apply Z.div_mul_cancel_r; lia. }
  assert (Erv : rv = n_valid / 20).
  { unfold rv. change 2000 with (20 * 100).
    apply Z.div_mul_cancel_r; lia. }
  assert (Hrt : 0 < rt <= 100 /\ 0 < rv <= 100 /\ rt + rv <= 100).
  { pose proof (Z.div_mod n_train 20). pose proof (Z.mod_pos_bound n_train 20).
    pose proof (Z.div_mod n_valid 20). pose proof (Z.mod_pos_bound n_valid 20).
    lia. }
  destruct Hrt as (Hrt & Hrv & Hboth).
  rewrite (category_split_blocks n_train n_valid Hrt Hrv). fold rt rv.
  pose proof (get_random_indices_length rk_state RandomState rk_interval
                rk_interval_range 100) as Hlen.
  pose proof (get_random_indices_NoDup rk_state RandomState rk_interval
                rk_interval_range 100) as Hnd.
  assert (Hrange : Forall (fun v => 0 <= v < 100) indices).
  { apply Forall_forall. intros v.
    apply (get_random_indices_In rk_state RandomState rk_interval
             rk_interval_range). }
  set (T := firstn (Z.to_nat rt) indices).
  set (V := skipn (100 - Z.to_nat rv) indices).
  assert (HTlen : length T = Z.to_nat rt)
    by (unfold T; rewrite length_firstn, Hlen; lia).
  assert (HVlen : length V = Z.to_nat rv)
    by (unfold V; rewrite length_skipn, Hlen; lia).
  assert (HT : Forall (fun v => 0 <= v < 100) T).
  { pose proof Hrange as H.
    rewrite <- (firstn_skipn (Z.to_nat rt) indices) in H.
    now apply Forall_app in H. }
  assert (HV : Forall (fun v => 0 <= v < 100) V).
  { pose proof Hrange as H.
    rewrite <- (firstn_skipn (100 - Z.to_nat rv) indices) in H.
    now apply Forall_app in H. }
  assert (HTnd : NoDup T).
  { pose proof Hnd as H.
    rewrite <- (firstn_skipn (Z.to_nat rt) indices) in H.
    now apply NoDup_app_remove_r in H. }
  assert (HVnd : NoDup V).
  { pose proof Hnd as H.
    rewrite <- (firstn_skipn (100 - Z.to_nat rv) indices) in H.
    now apply NoDup_app_remove_l in H. }
  assert (Hin : (0 <=? c) && (c <? 0 + Z.of_nat 20) = true).
  { destruct (Z.leb_spec 0 c); destruct (Z.ltb_spec c (0 + Z.of_nat 20));
      simpl; try lia; reflexivity. }
  split; [rewrite blocks_category_count, Hin by assumption; exact HTlen |].
  split; [rewrite blocks_category_count, Hin by assumption; exact HVlen |].
  split; [rewrite blocks_length, HTlen; reflexivity |].
  split; [rewrite blocks_length, HVlen; reflexivity |].
  split; [now apply blocks_NoDup |].
  split; [now apply blocks_NoDup |].
  rewrite Forall_forall in HT, HV.
  split.
  - intros i Hi1 Hi2.
    apply blocks_In in Hi1 as (v & d & Hv1 & Hd & E).
    apply blocks_In in Hi2 as (v' & d' & Hv' & Hd' & E').
    pose proof (HT _ Hv1). pose proof (HV _ Hv').
    assert (v = v') by lia. subst v'.
    apply (NoDup_cut_disjoint indices (100 - Z.to_nat rv) v Hnd); [| exact Hv'].
    apply (firstn_In_le indices (Z.to_nat rt)); [lia | exact Hv1].
  - intros i [Hi | Hi];
      apply blocks_In in Hi as (v & d & Hvin & Hd & ->).
    + pose proof (HT _ Hvin). lia.
    + pose proof (HV _ Hvin). lia.
Qed.

End CategorySplitMore.

(** An assignment that is no multiple of 20: 1610 and 390 give 1600 and
    380 indices. *)
Lemma category_split_1610_390 :
  let '(train, valid) :=
    Partition.category_split Z (fun seed => seed) Partition.lcg_interval
      1610 390 in
  length train = 1600%nat /\ length valid = 380%nat
  /\ (forall i, In i train -> ~ In i valid).
Proof.
  pose proof (category_split_for_any_assignment Z (fun seed => seed)
                Partition.lcg_interval lcg_interval_range 1610 390 0
                ltac:(lia) ltac:(lia) ltac:(lia) ltac:(lia)) as H.
  cbv zeta in H.
  destruct (Partition.category_split Z (fun seed => seed)
              Partition.lcg_interval 1610 390) as [train valid].
  destruct H as (_ & _ & H1 & H2 & _ & _ & H3 & _).
  split; [exact H1 | split; [exact H2 | exact H3]].
Defined.

(** ** The entry points *)

Section CallersFacts.

Import String Ascii Exn Py Consistency Partition Pipeline Callers.
Local Open Scope string_scope.

Variable upper : string -> string.

(** One step of a [load_data]: either the step raises, which ends the
    call, or the call goes on. *)
Ltac load_step :=
  match goal with
  | |- exists e, bind (call__fetch_dataset _ _ _ _ None _) _ = Raise e =>
      cbn [call__fetch_dataset bind]; eauto
  | |- exists e, bind ?r _ = Raise e =>
      let e := fresh "e" in
      destruct r as [? | e]; cbn [bind]; [| now exists e]
  end.

Lemma load_data_raises w c data_path :
  exists e, load_data w c data_path = Raise e.
Proof.
  destruct c; unfold load_data.
  - unfold SALICON_load_data. repeat load_step.
  - unfold MIT1003_load_data. cbv zeta. repeat load_step.
  - unfold CAT2000_load_data. cbv zeta. repeat load_step.
    destruct (category_split _ _ _ 1600 400) as [train_excerpt valid_excerpt].
    repeat load_step.
Qed.

(** Training cannot start.  [train_model] fails at its first statement,
    whatever is on disk: its call of [get_dataset_iterator] gives three
    of the four arguments.  And a call of [get_dataset_iterator] for the
    phase "train" with all four arguments never returns either: the
    dataset name is no class of the module, or the class cannot be
    built, or its [load_data] raises. *)
Theorem training_never_starts
    (w : world) (training : iterators -> outcome unit)
    (dataset data_path : string) :
  train_model upper w training dataset data_path
  = Raises (Exn missing_video_file_of_iterator)
  /\ (exists r,
        call_get_dataset_iterator upper w "train" dataset data_path true
        = Raises r).
Proof.
  split; [reflexivity |].
  unfold call_get_dataset_iterator, get_dataset_iterator.
  cbn [String.eqb Ascii.eqb Bool.eqb].
  destruct (class_of (upper dataset)) as [c | r]; [| eauto].
  destruct (load_data_raises w c data_path) as [e ->]. eauto.
Qed.


Lemma prefix_append a b : prefix a (a ++ b) = true.
Proof.
  induction a as [| c a IH]; cbn [append prefix].
  - now destruct b.
  - destruct (ascii_dec c c); [exact IH | congruence].
Qed.

Lemma contains_append a sub b : contains sub (a ++ sub ++ b) = true.
Proof.
  induction a as [| c a IH]; cbn [append].
  - destruct (sub ++ b) eqn:E; cbn [contains]; rewrite <- E;
      now rewrite prefix_append.
  - cbn [contains]. rewrite IH. apply orb_true_r.
Qed.

(** For the phase "train" the data path that [define_paths] returns
    mentions the dataset: the name is added to a path that does not
    contain it, and a path that contains it is kept; for another phase
    the path is kept.  Every other path lies under the directory of the
    script. *)
Theorem define_paths_data_path
    (w : world) (current_path : string) (args : arguments) :
  let given :=
    if isfile w (arg_path args) then arg_path args
    else join (arg_path args) "" in
  let p := define_paths w current_path args in
  (if String.eqb (arg_phase args) "train"
   then contains (arg_data args) (paths_data p) = true
        /\ (if contains (arg_data args) given
            then paths_data p = given
            else paths_data p = given ++ arg_data args ++ "/")
   else paths_data p = given)
  /\ Forall (fun path => prefix (current_path ++ "/") path = true)
       [paths_history p; paths_images p; paths_best p; paths_latest p;
        paths_weights p].
Proof.
  cbv zeta. unfold define_paths. cbn [paths_data paths_history paths_images
    paths_best paths_latest paths_weights].
  set (given := if isfile w (arg_path args) then arg_path args
                else join (arg_path args) "").
  split.
  - destruct (String.eqb (arg_phase args) "train"); [| reflexivity].
    destruct (contains (arg_data args) given) eqn:E; cbn [negb].
    + now split.
    + split; [apply contains_append | reflexivity].
  - assert (Hunder : forall rest,
               prefix (current_path ++ "/") (current_path ++ "/" ++ rest)
               = true).
    { intros rest.
      replace (current_path ++ "/" ++ rest)
        with ((current_path ++ "/") ++ rest); [apply prefix_append |].
      induction current_path as [| c s IH]; cbn; [reflexivity |].
      now rewrite IH. }
    assert (Hassoc : forall a b c : string, (a ++ b) ++ c = a ++ b ++ c).
    { intros a b c. induction a as [| x a IH]; cbn; [reflexivity |].
      now rewrite IH. }
    repeat constructor; rewrite ?Hassoc; apply Hunder.
Qed.

End CallersFacts.

Section CallersExamples.

Import String Pipeline Callers.
Local Open Scope string_scope.


End CallersExamples.

(** ** More on the inference loop and on the names *)

Section InferenceMore.

Import String Ascii Exn Py Num Geometry Consistency Partition Pipeline Callers.
Local Open Scope string_scope.

Lemma run_batches_predictions w pending acc last :
  fst (run_batches w pending acc last)
  = (acc ++ map (map (fun e : element => predict w (fst (fst e)))) pending)%list.
Proof.
  revert acc last. induction pending as [| b rest IH]; intros acc last;
    cbn [run_batches map].
  - now rewrite app_nil_r.
  - rewrite IH, <- app_assoc. reflexivity.
Qed.

Lemma concat_map_map {A B} (f : A -> B) (ll : list (list A)) :
  List.concat (map (map f) ll) = map f (List.concat ll).
Proof.
  induction ll as [| l ll IH]; cbn [map List.concat]; [reflexivity |].
  now rewrite IH, map_app.
Qed.


(** [rfind], through a string that holds the character once more. *)
Lemma rfind_from_free c s pos last :
  free_of c s = true -> rfind_from c s pos last = last.
Proof.
  revert pos last. induction s as [| a s IH]; intros pos last Hfree;
    cbn [rfind_from free_of] in *; [reflexivity |].
  apply andb_prop in Hfree as [Ha Hs].
  destruct (Ascii.eqb a c); [discriminate |]. now apply IH.
Qed.

Lemma rfind_from_last c a b pos last :
  free_of c b = true ->
  rfind_from c (a ++ String c b) pos last = (pos + Z.of_nat (length a))%Z.
Proof.
  revert pos last. induction a as [| x a IH]; intros pos last Hfree.
  - cbn [append rfind_from length]. rewrite Ascii.eqb_refl.
    rewrite rfind_from_free by assumption. lia.
  - cbn [append rfind_from length]. rewrite IH by assumption. lia.
Qed.

(** The directory of a path plays no part in the check of the names:
    for a name without separator, the path [dir/name] reduces to what
    the name alone reduces to. *)
Theorem reduced_name_ignores_directory (dir name : string) :
  free_of "/" name = true ->
  basename (dir ++ "/" ++ name) = name
  /\ reduced_name (dir ++ "/" ++ name) = reduced_name name.
Proof.
  intros Hfree.
  assert (Hdrop : forall a b, drop (Z.of_nat (length a)) (a ++ b) = b).
  { intros a b. unfold drop. rewrite Nat2Z.id, length_append.
    replace (length a + length b - length a)%nat with (length b) by lia.
    apply substring_skip. }
  assert (Hassoc : dir ++ String "/" name = (dir ++ "/") ++ name).
  { clear. induction dir as [| c d IH]; cbn; [reflexivity | now rewrite IH]. }
  assert (Hbase : basename (dir ++ "/" ++ name) = name).
  { unfold basename, rfind.
    change ("/" ++ name) with (String "/" name).
    rewrite rfind_from_last by assumption.
    replace (0 + Z.of_nat (length dir) + 1)%Z
      with (Z.of_nat (length (dir ++ "/")))
      by (rewrite length_append; cbn [length]; lia).
    rewrite Hassoc. apply Hdrop. }
  split; [exact Hbase |].
  assert (Hself : basename name = name).
  { unfold basename, rfind. rewrite rfind_from_free by assumption.
    apply (Hdrop "" name). }
  unfold reduced_name. now rewrite Hbase, Hself.
Qed.

Lemma reduced_name_ignores_directory_example :
  reduced_name ("data/stimuli/train" ++ "/" ++ "img_001.jpg")
  = reduced_name "img_001.jpg".
Proof.
  apply (reduced_name_ignores_directory "data/stimuli/train" "img_001.jpg").
  reflexivity.
Defined.


End InferenceMore.

(** ** The properties of the geometry on examples *)

Section GeometryMoreExamples.

Import Num Py Geometry.

Abbreviation resize_nearest := (_resize_image cv2_nearest tf_nearest).

(** A 100 x 300 frame fitted into 240 x 320: the width is met. *)
Lemma resize_meets_target_example :
  let resized := resize_nearest (synthetic 100 300 3) (240, 320) false true in
  (rows resized = 240 \/ cols resized = 320)
  /\ rows resized <= 240 /\ cols resized <= 320.
Proof.
  apply (resize_meets_target_on_one_axis cv2_nearest tf_nearest
           (synthetic 100 300 3) (240, 320) false true); cbn; lia.
Defined.

(** A 3 x 5 map padded to 8 x 8 and cropped back. *)
Lemma crop_undoes_pad_example :
  let back :=
    _crop_image (pad_step false (synthetic 3 5 1) (8, 8))
      (shape2 (synthetic 3 5 1)) false in
  shape2 back = (3, 5)
  /\ chans back = 1
  /\ (forall i j k, 0 <= i < 3 -> 0 <= j < 5 ->
        px back i j k = px (synthetic 3 5 1) i j k).
Proof.
  apply (crop_undoes_pad (synthetic 3 5 1) (8, 8) false); cbn; lia.
Defined.

(** A 4 x 6 map cropped to 10 x 3: fewer rows than asked for. *)
Lemma crop_never_enlarges_example :
  let out := _crop_image (synthetic 4 6 1) (10, 3) true in
  (0 <= rows out <= Z.min 4 (Z.max 0 10) /\ (4 < 10 -> rows out < 10))
  /\ (0 <= cols out <= Z.min 6 (Z.max 0 3) /\ (6 < 3 -> cols out < 3)).
Proof.
  apply (crop_never_enlarges (synthetic 4 6 1) (10, 3) true); cbn; lia.
Defined.

(** A 500 x 500 image reduced to 256 x 256: the area kernel on both
    backends. *)
Lemma square_image_choice_example :
  resize_nearest (synthetic 500 500 3) (256, 256) false true
  = clip_image 0 255
      (cv2_resize cv2_nearest (synthetic 500 500 3) (256, 256) INTER_AREA)
  /\ resize_nearest (synthetic 500 500 3) (256, 256) false false
     = clip_image 0 255
         (tf_resize tf_nearest resize_area (synthetic 500 500 3) (256, 256)).
Proof.
  pose proof (square_image_choice_agrees cv2_nearest tf_nearest
                (synthetic 500 500 3) (256, 256) false eq_refl) as H.
  cbv zeta in H.
  assert (E : scaled_size (shape2 (synthetic 500 500 3))
                (target_ratio (shape2 (synthetic 500 500 3)) (256, 256) false)
              = (256, 256)) by (vm_compute; reflexivity).
  rewrite E in H. exact H.
Defined.

End GeometryMoreExamples.
